(** * HTTP/3 connection engine and client: a shallow embedding

    The development follows the Go package [http3]: the error codes of
    [errors.go], the response body of [body.go], the connection engine
    ([connection], its stream acceptors and the control-stream reader) and
    the client ([RoundTrip], [doRequest]).

    Conventions.
    - Unsigned wire values ([uint64]: error codes, setting identifiers and
      values, stream-type tags, session ids) are [N]; Go [int] and [int64]
      are [Z].
    - Calls on the QUIC session and on streams are recorded, in program
      order, in an event log; results of calls into the transport (what a
      read returns, whether the session supports datagrams) are inputs.
    - A goroutine started with [go] is recorded as an event and analysed as
      a function of its own; a critical section guarded by a mutex is one
      atomic step. *)

From Stdlib Require Import ZArith NArith List Lia Bool String Ascii.
From Stdlib Require Strings.Byte HexString.
From stdpp Require Import base gmap list strings.

Local Open Scope string_scope.
Local Open Scope list_scope.
Local Open Scope nat_scope.

(* ===================================================================== *)
(** * errors.go *)
(* ===================================================================== *)

Module Errors.

Definition errorCode := N.

Definition errorNoError              : errorCode := 0x100%N.
Definition errorGeneralProtocolError : errorCode := 0x101%N.
Definition errorInternalError        : errorCode := 0x102%N.
Definition errorStreamCreationError  : errorCode := 0x103%N.
Definition errorClosedCriticalStream : errorCode := 0x104%N.
Definition errorFrameUnexpected      : errorCode := 0x105%N.
Definition errorFrameError           : errorCode := 0x106%N.
Definition errorExcessiveLoad        : errorCode := 0x107%N.
Definition errorIDError              : errorCode := 0x108%N.
Definition errorSettingsError        : errorCode := 0x109%N.
Definition errorMissingSettings      : errorCode := 0x10a%N.
Definition errorRequestRejected      : errorCode := 0x10b%N.
Definition errorRequestCanceled      : errorCode := 0x10c%N.
Definition errorRequestIncomplete    : errorCode := 0x10d%N.
Definition errorMessageError         : errorCode := 0x10e%N.
Definition errorConnectError         : errorCode := 0x10f%N.
Definition errorVersionFallback      : errorCode := 0x110%N.
Definition errorWebTransportBufferedStreamRejected : errorCode := 0x3994bd84%N.

(** Go [error] values, by dynamic type: the two structured framing errors of
    [errors.go], [*quic.ApplicationError], and every other error value. *)
Inductive error : Type :=
| FrameTypeError (Want Type_ : N)
| FrameLengthError (Type_ Len Max : N)
| ApplicationError (ErrorCode : N) (ErrorMessage : string)
| OtherError (msg : string).

#[global] Instance error_eq_dec : EqDecision error.
Proof. solve_decision. Defined.

End Errors.

(* ===================================================================== *)
(** * Go standard library functions used by the package *)
(* ===================================================================== *)

Module Strconv.

(** The value of an ASCII decimal digit. *)
Definition digit_of (c : ascii) : option Z :=
  let n := Z.of_N (N_of_ascii c) in
  if (48 <=? n)%Z && (n <=? 57)%Z then Some (n - 48)%Z else None.

(** Base-10 digits only (no sign, no underscore, no prefix), most
    significant first; [None] at the first byte that is not a digit. *)
Fixpoint parse_digits (s : string) (acc : Z) : option Z :=
  match s with
  | EmptyString => Some acc
  | String c s' =>
      match digit_of c with
      | Some d => parse_digits s' (acc * 10 + d)%Z
      | None => None
      end
  end.

(** [strconv.ParseInt(s, 10, bitSize)]: an optional sign, then one or more
    decimal digits; the value must fit a signed [bitSize]-bit integer.
    [None] stands for a non-nil [*NumError] (syntax or range). *)
Definition ParseInt10 (bitSize : Z) (s : string) : option Z :=
  match s with
  | EmptyString => None
  | String c rest =>
      let neg := Ascii.eqb c "-"%char in
      let signed := neg || Ascii.eqb c "+"%char in
      let digits := if signed then rest else s in
      match digits with
      | EmptyString => None
      | _ =>
          match parse_digits digits 0 with
          | None => None
          | Some un =>
              let cutoff := (2 ^ (bitSize - 1))%Z in
              if negb neg && (cutoff <=? un)%Z then None
              else if neg && (cutoff <? un)%Z then None
              else Some (if neg then (- un)%Z else un)
          end
      end
  end.

(** [strconv.Atoi] on a platform whose [int] has 64 bits. *)
Definition Atoi (s : string) : option Z := ParseInt10 64 s.

End Strconv.

Module Textproto.

Definition in_range (lo hi : N) (c : ascii) : bool :=
  let n := N_of_ascii c in (lo <=? n)%N && (n <=? hi)%N.

Definition is_lower (c : ascii) : bool := in_range 97 122 c.
Definition is_upper (c : ascii) : bool := in_range 65 90 c.
Definition is_digit (c : ascii) : bool := in_range 48 57 c.

Definition to_upper (c : ascii) : ascii :=
  if is_lower c then ascii_of_N (N_of_ascii c - 32) else c.
Definition to_lower (c : ascii) : ascii :=
  if is_upper c then ascii_of_N (N_of_ascii c + 32) else c.

(** The token bytes of RFC 7230 ([validHeaderFieldByte]). *)
Definition validHeaderFieldByte (c : ascii) : bool :=
  is_lower c || is_upper c || is_digit c ||
  existsb (Ascii.eqb c) (list_ascii_of_string "!#$%&'*+-.^_`|~").

Fixpoint all_valid (s : string) : bool :=
  match s with
  | EmptyString => true
  | String c s' => validHeaderFieldByte c && all_valid s'
  end.

(** First letter and every letter after a hyphen in upper case, the other
    letters in lower case. *)
Fixpoint capitalize (upper : bool) (s : string) : string :=
  match s with
  | EmptyString => EmptyString
  | String c s' =>
      let c' := if upper then to_upper c else to_lower c in
      String c' (capitalize (Ascii.eqb c' "-"%char) s')
  end.

(** [textproto.CanonicalMIMEHeaderKey]: a key with a byte that is not a
    token byte is returned unchanged. *)
Definition CanonicalMIMEHeaderKey (s : string) : string :=
  if all_valid s then capitalize true s else s.

End Textproto.

(** [http.Header]: a map from canonical keys to the list of values. *)
Module Header.

Abbreviation t := (gmap string (list string)).

Definition index (h : t) (k : string) : list string := default [] (h !! k).

Definition Add (h : t) (key value : string) : t :=
  let k := Textproto.CanonicalMIMEHeaderKey key in
  <[k := index h k ++ [value]]> h.

Definition Get (h : t) (key : string) : string :=
  match h !! Textproto.CanonicalMIMEHeaderKey key with
  | Some (v :: _) => v
  | _ => ""
  end.

Definition Del (h : t) (key : string) : t :=
  delete (Textproto.CanonicalMIMEHeaderKey key) h.

End Header.

(* ===================================================================== *)
(** * body.go *)
(* ===================================================================== *)

Module Body.
Import Errors.

(** What [body] does to the world outside it. *)
Inductive event : Type :=
| DataRead                       (* r.str.DataReader().Read(p) *)
| ReadHeaders                    (* r.str.ReadHeaders() *)
| OnTrailers                     (* r.onTrailers(...) *)
| CloseReqDone                   (* close(r.reqDone) *)
| CancelRead (code : N).         (* r.str.CancelRead(code) *)

#[global] Instance event_eq_dec : EqDecision event.
Proof. solve_decision. Defined.

(** [reqDone] is [true] when the channel is non-nil (a response body),
    [onTrailers] is [true] when the callback is non-nil. *)
Record body : Type := mkBody {
  reqDone : bool;
  reqDoneClosed : bool;
  onTrailers : bool;
}.

Definition newRequestBody (onTr : bool) : body :=
  {| reqDone := false; reqDoneClosed := false; onTrailers := onTr |}.

Definition newResponseBody (onTr : bool) : body :=
  {| reqDone := true; reqDoneClosed := false; onTrailers := onTr |}.

(** The error returned by the data reader. *)
Inductive readErr : Type := NoErr | EOF | Failure (e : error).

Definition requestDone (r : body) : body * list event :=
  if reqDoneClosed r || negb (reqDone r) then (r, [])
  else ({| reqDone := reqDone r; reqDoneClosed := true;
           onTrailers := onTrailers r |}, [CloseReqDone]).

(** [Read]: [n] and [err] are what the data reader returns; they are
    returned to the caller unchanged. *)
Definition Read (r : body) (n : Z) (err : readErr)
  : body * (Z * readErr) * list event :=
  match err with
  | NoErr => (r, (n, err), [DataRead])
  | _ =>
      let trailers :=
        match err with
        | EOF => if onTrailers r then [ReadHeaders; OnTrailers] else []
        | _ => []
        end in
      let '(r', evs) := requestDone r in
      (r', (n, err), [DataRead] ++ trailers ++ evs)
  end.

(** [Close] returns a Go [error]: [None] is [nil]. *)
Definition Close (r : body) : body * option error * list event :=
  let '(r', evs) := requestDone r in
  (r', None, evs ++ [CancelRead errorRequestCanceled]).

(** A call made by the user of the body. *)
Inductive call : Type :=
| CallRead (n : Z) (err : readErr)
| CallClose.

Definition step (r : body) (c : call) : body * list event :=
  match c with
  | CallRead n err => let '(r', _, evs) := Read r n err in (r', evs)
  | CallClose => let '(r', _, evs) := Close r in (r', evs)
  end.

Fixpoint run (r : body) (cs : list call) : body * list event :=
  match cs with
  | [] => (r, [])
  | c :: cs' =>
      let '(r1, e1) := step r c in
      let '(r2, e2) := run r1 cs' in
      (r2, e1 ++ e2)
  end.

Definition closes (evs : list event) : nat :=
  length (List.filter (λ e, bool_decide (e = CloseReqDone)) evs).

Definition cancels (evs : list event) : nat :=
  length (List.filter (λ e, bool_decide (e = CancelRead errorRequestCanceled)) evs).

Definition close_calls (cs : list call) : nat :=
  length (List.filter (λ c, match c with CallClose => true | _ => false end) cs).

End Body.

(* ===================================================================== *)
(** * The connection engine *)
(* ===================================================================== *)

Module Conn.
Import Errors.

(** The identity of a QUIC stream object ([quic.Stream],
    [quic.ReceiveStream]); the interface values are never nil. *)
Definition Stream := N.

(** [Settings] is [map[SettingID]uint64]. A nil map reads like the empty
    one; where the code tells them apart the model uses [option]. *)
Abbreviation Settings := (gmap N N).

(** Frame types, stream types and setting identifiers are declared with the
    frame and settings codecs of the package; the values are those of the
    wire format (specification, section 3). *)
Definition FrameTypeData               : N := 0x00%N.
Definition FrameTypeHeaders            : N := 0x01%N.
Definition FrameTypeSettings           : N := 0x04%N.
Definition FrameTypeWebTransportStream : N := 0x41%N.

Definition StreamTypeControl            : N := 0x00%N.
Definition StreamTypePush               : N := 0x01%N.
Definition StreamTypeQPACKEncoder       : N := 0x02%N.
Definition StreamTypeQPACKDecoder       : N := 0x03%N.
Definition StreamTypeWebTransportStream : N := 0x54%N.

Definition SettingMaxFieldSectionSize : N := 0x06%N.

Definition maxBufferedStreams : nat := 10.

(** [16 << 20] *)
Definition defaultMaxFieldSectionSize : N := N.shiftl 16 20.

(** [http.DefaultMaxHeaderBytes] of net/http: [1 << 20]. *)
Definition DefaultMaxHeaderBytes : N := N.shiftl 1 20.

(** Modelled from the spec: [isClientBidi] is not among the sources; a
    client-initiated bidirectional stream id has its low two bits zero. *)
Definition isClientBidi (id : N) : bool := (N.land id 3 =? 0)%N.

Inductive Perspective : Type := PerspectiveClient | PerspectiveServer.

(** What the engine asks of the QUIC session. *)
Record session : Type := mkSession {
  sessPerspective : Perspective;
  SupportsDatagrams : bool;          (* ConnectionState().SupportsDatagrams *)
}.

(** The text handed to [CloseWithError], kept symbolic where the code
    formats it with [String] methods of the frame and stream types. *)
Inductive reason : Type :=
| Text (s : string)
| ErrorText (e : error)              (* err.Error() *)
| MoreThanOne (streamType : N)       (* "more than one %s opened" *)
| SpuriousFromClient (streamType : N). (* "spurious %s from client" *)

(** What the peer-settings latch shows to a reader: [PeerSettings] before
    the channel is closed, and the two stored fields after. *)
Inductive latch : Type :=
| Pending
| Ready (s : Settings)
| Failed (e : error).

Inductive event : Type :=
| CancelRead (str : Stream) (code : N)
| CancelWrite (str : Stream) (code : N)
| CloseWithError (code : N) (why : reason)     (* conn.session.CloseWithError *)
| ClosePeerSettingsDone (shown : latch)        (* close(conn.peerSettingsDone) *)
| Panic                                        (* close of a closed channel *)
| GoHandleControlStream (str : Stream)         (* go conn.handleControlStream(str) *)
| SendRequestStream (str : Stream).            (* conn.incomingRequestStreams <- fr *)

#[global] Instance reason_eq_dec : EqDecision reason.
Proof. solve_decision. Defined.
#[global] Instance latch_eq_dec : EqDecision latch.
Proof. solve_decision. Defined.
#[global] Instance event_eq_dec : EqDecision event.
Proof. solve_decision. Defined.

(** The fields of [connection] the stream handlers read and write. A
    channel is the list of the values buffered in it, oldest first; a key
    of a demultiplex table is present once its channel has been made. *)
Record connection : Type := mkConn {
  settings : gmap N N;
  peerSettingsDone : bool;                    (* [true]: closed *)
  peerSettings : option (gmap N N);           (* [None]: nil *)
  peerSettingsErr : option error;
  peerStreams : list (option Stream);         (* [4]quic.ReceiveStream *)
  incomingStreams : gmap N (list Stream);
  incomingUniStreams : gmap N (list Stream);
}.

Definition set_peerSettings (ps : option (gmap N N)) (pe : option error)
  (c : connection) : connection :=
  mkConn (settings c) (peerSettingsDone c) ps pe (peerStreams c)
         (incomingStreams c) (incomingUniStreams c).

Definition set_peerSettingsErr (pe : option error) (c : connection) : connection :=
  set_peerSettings (peerSettings c) pe c.

Definition set_peerSettingsDone (b : bool) (c : connection) : connection :=
  mkConn (settings c) b (peerSettings c) (peerSettingsErr c) (peerStreams c)
         (incomingStreams c) (incomingUniStreams c).

Definition set_peerStreams (l : list (option Stream)) (c : connection) : connection :=
  mkConn (settings c) (peerSettingsDone c) (peerSettings c) (peerSettingsErr c) l
         (incomingStreams c) (incomingUniStreams c).

Definition set_incomingStreams (m : gmap N (list Stream)) (c : connection) : connection :=
  mkConn (settings c) (peerSettingsDone c) (peerSettings c) (peerSettingsErr c)
         (peerStreams c) m (incomingUniStreams c).

Definition set_incomingUniStreams (m : gmap N (list Stream)) (c : connection) : connection :=
  mkConn (settings c) (peerSettingsDone c) (peerSettings c) (peerSettingsErr c)
         (peerStreams c) (incomingStreams c) m.

(** The connection value built by [newConn] from the settings it settled on. *)
Definition newConn (s : gmap N N) : connection :=
  {| settings := s;
     peerSettingsDone := false;
     peerSettings := None;
     peerSettingsErr := None;
     peerStreams := replicate 4 None;
     incomingStreams := ∅;
     incomingUniStreams := ∅ |}.

(** [m[k]] on a possibly nil map, with the comma-ok flag. *)
Definition index_ok (m : option (gmap N N)) (k : N) : option N := m ≫= (.!! k).

(** The error of a cancelled [session.Context()]. *)
Definition contextCanceled : error := OtherError "context canceled".

(** [PeerSettings]: a [select] with a default. When both channels are ready
    Go picks one of the two cases; [pick] is that choice. *)
Definition PeerSettings (c : connection) (ctxDone pick : bool)
  : option (gmap N N) * option error :=
  match peerSettingsDone c, ctxDone with
  | true, false => (peerSettings c, peerSettingsErr c)
  | false, true => (None, Some contextCanceled)
  | true, true =>
      if pick then (peerSettings c, peerSettingsErr c)
      else (None, Some contextCanceled)
  | false, false => (None, None)
  end.

Definition shown (c : connection) : latch :=
  if peerSettingsDone c then
    match peerSettingsErr c with
    | Some e => Failed e
    | None => Ready (default ∅ (peerSettings c))
    end
  else Pending.

Definition maxHeaderBytes (c : connection) : N :=
  let max := default 0%N (settings c !! SettingMaxFieldSectionSize) in
  if (0 <? max)%N then max else defaultMaxFieldSectionSize.

Definition peerMaxHeaderBytes (c : connection) (ctxDone pick : bool) : N :=
  let '(peerSettings, _) := PeerSettings c ctxDone pick in
  match index_ok peerSettings SettingMaxFieldSectionSize with
  | Some max => if (0 <? max)%N then max else DefaultMaxHeaderBytes
  | None => DefaultMaxHeaderBytes
  end.

(** [incomingStreamsChan], [incomingUniStreamsChan]: the channel of a
    session id, made on first use. *)
Definition incomingStreamsChan (c : connection) (sessionID : N)
  : connection * list Stream :=
  match incomingStreams c !! sessionID with
  | Some ch => (c, ch)
  | None => (set_incomingStreams (<[sessionID := []]> (incomingStreams c)) c, [])
  end.

Definition incomingUniStreamsChan (c : connection) (sessionID : N)
  : connection * list Stream :=
  match incomingUniStreams c !! sessionID with
  | Some ch => (c, ch)
  | None => (set_incomingUniStreams (<[sessionID := []]> (incomingUniStreams c)) c, [])
  end.

(** A non-blocking send succeeds when the buffer has room. *)
Definition has_room (ch : list Stream) : bool := Nat.ltb (length ch) maxBufferedStreams.

(** What [fr.Next()] finds. *)
Inductive nextResult : Type :=
| NextErr (e : error)
| NextFrame (Type_ : N) (N_ : N).

(** The peer's control stream as [readSettings] meets it: the first call of
    [fr.Next()], and the outcome of decoding that frame's payload as a list
    of identifier and value pairs. *)
Inductive controlStream : Type :=
| ControlNextErr (e : error)
| ControlFrame (Type_ : N) (payload : error + gmap N N).

(** Modelled from the spec: [readSettings] is not among the sources. It
    reads the first frame; a frame that is not SETTINGS is a
    [FrameTypeError]; a payload that does not decode is an error;
    otherwise the settings are returned. *)
Definition readSettings (fr : controlStream) : option (gmap N N) * option error :=
  match fr with
  | ControlNextErr e => (None, Some e)
  | ControlFrame t payload =>
      if (t =? FrameTypeSettings)%N then
        match payload with
        | inr s => (Some s, None)
        | inl e => (None, Some e)
        end
      else (None, Some (FrameTypeError FrameTypeSettings t))
  end.

(** A peer-initiated unidirectional stream: the stream, what reading the
    leading varint gives, and what reading a second varint gives. *)
Record uniStream : Type := mkUni {
  ustr : Stream;
  utype : error + N;
  usession : error + N;
}.

Definition slot (c : connection) (streamType : N) : option Stream :=
  match peerStreams c !! N.to_nat streamType with
  | Some s => s
  | None => None
  end.

Section Handlers.

(** The [Settings] methods [DatagramsEnabled] and [WebTransportEnabled]
    belong to the settings codec; the handlers take them as parameters. *)
Variable DatagramsEnabled : gmap N N → bool.
Variable WebTransportEnabled : gmap N N → bool.

Definition handleControlStream (sess : session) (c : connection)
  (fr : controlStream) : connection * list event :=
  let '(ps, perr) := readSettings fr in
  let c1 := set_peerSettings ps perr c in
  if peerSettingsDone c then (c1, [Panic])
  else
    let c2 := set_peerSettingsDone true c1 in
    let released := ClosePeerSettingsDone (shown c2) in
    match perr with
    | Some e =>
        (c2, [released; CloseWithError errorMissingSettings (ErrorText e)])
    | None =>
        if DatagramsEnabled (default ∅ ps) && negb (SupportsDatagrams sess) then
          let err := ApplicationError errorSettingsError
                       "missing QUIC Datagram support" in
          (set_peerSettingsErr (Some err) c2,
           [released;
            CloseWithError errorSettingsError (Text "missing QUIC Datagram support")])
        else (c2, [released])
    end.

Definition handleIncomingUniStream (sess : session) (c : connection)
  (u : uniStream) : connection * list event :=
  let str := ustr u in
  match utype u with
  | inl _ => (c, [CancelRead str errorGeneralProtocolError])
  | inr streamType =>
      let stored := (streamType <? 4)%N in
      let prevPeerStream := if stored then slot c streamType else None in
      let c1 :=
        if stored then
          set_peerStreams (<[N.to_nat streamType := Some str]> (peerStreams c)) c
        else c in
      if stored && bool_decide (is_Some prevPeerStream) then
        (c1, [CloseWithError errorStreamCreationError (MoreThanOne streamType)])
      else if (streamType =? StreamTypeControl)%N then
        (c1, [GoHandleControlStream str])
      else if (streamType =? StreamTypePush)%N then
        match sessPerspective sess with
        | PerspectiveServer =>
            (c1, [CloseWithError errorStreamCreationError
                    (SpuriousFromClient streamType)])
        | PerspectiveClient =>
            (c1, [CloseWithError errorIDError (Text "MAX_PUSH_ID = 0")])
        end
      else if (streamType =? StreamTypeQPACKEncoder)%N
              || (streamType =? StreamTypeQPACKDecoder)%N then
        (c1, [])
      else if (streamType =? StreamTypeWebTransportStream)%N then
        if negb (WebTransportEnabled (settings c1)) then
          (c1, [CancelRead str errorSettingsError])
        else
          match usession u with
          | inl _ => (c1, [CancelRead str errorGeneralProtocolError])
          | inr sessionID =>
              if negb (isClientBidi sessionID) then
                (c1, [CancelRead str errorIDError])
              else
                let '(c2, ch) := incomingUniStreamsChan c1 sessionID in
                if has_room ch then
                  (set_incomingUniStreams
                     (<[sessionID := ch ++ [str]]> (incomingUniStreams c2)) c2, [])
                else
                  (c2, [CancelRead str errorWebTransportBufferedStreamRejected])
          end
      else (c1, [CancelRead str errorStreamCreationError])
  end.

(** [handleIncomingStream]: [frames] are the successive results of
    [fr.Next()]; past the last one the stream has ended and [Next] fails. *)
Fixpoint handleIncomingStream (c : connection) (str : Stream)
  (frames : list nextResult) : connection * list event :=
  match frames with
  | [] => (c, [CancelWrite str errorRequestIncomplete])
  | NextErr _ :: _ => (c, [CancelWrite str errorRequestIncomplete])
  | NextFrame ty n :: rest =>
      if (ty =? FrameTypeHeaders)%N then (c, [SendRequestStream str])
      else if (ty =? FrameTypeWebTransportStream)%N then
        if negb (WebTransportEnabled (settings c)) then
          (c, [CancelRead str errorSettingsError;
               CancelWrite str errorSettingsError])
        else
          let sessionID := n in
          let idError :=
            if negb (isClientBidi sessionID) then
              [CancelRead str errorIDError; CancelWrite str errorIDError]
            else [] in
          let '(c1, ch) := incomingStreamsChan c sessionID in
          if has_room ch then
            (set_incomingStreams
               (<[sessionID := ch ++ [str]]> (incomingStreams c1)) c1, idError)
          else
            (c1, idError ++
                 [CancelRead str errorWebTransportBufferedStreamRejected;
                  CancelWrite str errorWebTransportBufferedStreamRejected])
      else if (ty =? FrameTypeData)%N then
        (c, [CloseWithError errorFrameUnexpected
               (ErrorText (FrameTypeError FrameTypeHeaders ty))])
      else handleIncomingStream c str rest
  end.

(** The streams accepted by [handleIncomingUniStreams], each handled by
    its own goroutine; the list gives the order in which the handlers run. *)
Fixpoint serveUniStreams (sess : session) (c : connection)
  (us : list uniStream) : connection * list event :=
  match us with
  | [] => (c, [])
  | u :: us' =>
      let '(c1, e1) := handleIncomingUniStream sess c u in
      let '(c2, e2) := serveUniStreams sess c1 us' in
      (c2, e1 ++ e2)
  end.

End Handlers.

(** An instance of the settings methods for concrete runs: a setting is
    enabled when its identifier ([0x276] for H3_DATAGRAM, [0x2b603742] for
    WebTransport) has value 1. *)
Definition datagramSetting (s : gmap N N) : bool :=
  bool_decide (s !! 0x276%N = Some 1%N).

Definition webTransportSetting (s : gmap N N) : bool :=
  bool_decide (s !! 0x2b603742%N = Some 1%N).

(** A connection whose peer sent a SETTINGS frame without
    MAX_FIELD_SECTION_SIZE, after the control-stream reader has run. *)
Definition afterEmptySettings : connection :=
  fst (handleControlStream datagramSetting (mkSession PerspectiveClient false)
         (newConn ∅) (ControlFrame FrameTypeSettings (inr ∅))).

(** The error of a varint read on a stream that has ended. *)
Definition endOfVarint : error := OtherError "EOF".

(** A frame type that [handleIncomingStream] skips. *)
Definition skipped (f : nextResult) : Prop :=
  match f with
  | NextErr _ => False
  | NextFrame ty _ =>
      ty ≠ FrameTypeHeaders ∧ ty ≠ FrameTypeWebTransportStream ∧ ty ≠ FrameTypeData
  end.

Definition closes_with (code : N) (evs : list event) : Prop :=
  ∃ why, CloseWithError code why ∈ evs.

(** How often [go conn.handleControlStream(str)] was executed. *)
Definition control_starts (evs : list event) : nat :=
  length (List.filter
            (λ e, match e with GoHandleControlStream _ => true | _ => false end)
            evs).

Definition releases (evs : list event) : nat :=
  length (List.filter
            (λ e, match e with ClosePeerSettingsDone _ => true | _ => false end)
            evs).

End Conn.

(* ===================================================================== *)
(** * The client *)
(* ===================================================================== *)

Module Client.
Import Errors.

Definition MethodGet0RTT : string := "GET_0RTT".
Definition MethodGet     : string := "GET".
Definition MethodHead    : string := "HEAD".
Definition MethodConnect : string := "CONNECT".

(** The name of the pseudo-header carrying the response status. *)
Definition pseudoHeaderStatus : string := ":status".

(** [qpack.HeaderField] *)
Record HeaderField : Type := mkField { Name : string; Value : string }.

(** The fields of [http.Request] the client looks at. *)
Record Request : Type := mkRequest {
  Method : string;
  ReqHeader : gmap string (list string);
}.

(** [res.Body]: the response body itself, or the gzip reader around it. *)
Inductive bodyReader : Type := RespBody | GzipReader.

(** The fields of [http.Response] set by [doRequest]; [ContentLength] of a
    fresh response is the zero value. *)
Record Response : Type := mkResponse {
  StatusCode : Z;
  Status : string;
  Header : gmap string (list string);
  ContentLength : Z;
  Uncompressed : bool;
  Body : bodyReader;
}.

Inductive event : Type :=
| GoCancelObserver                         (* the request-cancellation goroutine *)
| WriteRequest (requestGzip : bool)        (* c.writeRequest(str, req, requestGzip) *)
| CancelWrite (code : N)                   (* str.CancelWrite(code) *)
| SessCloseWithError (code : N) (e : error) (* c.sess.CloseWithError(code, e.Error()) *)
| CloseReqDone.                            (* close(reqDone) *)

#[global] Instance event_eq_dec : EqDecision event.
Proof. solve_decision. Defined.

(** One call of [str.ReadHeaders()]. *)
Definition headersRead : Type := error + list HeaderField.

(** The error [ReadHeaders] gives once the stream has nothing more. *)
Definition endOfStream : error := OtherError "EOF".

Definition invalidStatus : error := OtherError "invalid or missing :status header".

(** The inner loop of [doRequest] over the fields of one HEADERS frame.
    [None]: a [:status] value that [strconv.Atoi] rejects. The status text
    is built from [res.StatusCode], which is still zero at that point, and
    [http.StatusText(0)] is empty. *)
Fixpoint scanHeaders (headers : list HeaderField) (statusCode : Z)
  (status : string) (h : gmap string (list string))
  : option (Z * string * gmap string (list string)) :=
  match headers with
  | [] => Some (statusCode, status, h)
  | hf :: rest =>
      if String.eqb (Name hf) pseudoHeaderStatus then
        match Strconv.Atoi (Value hf) with
        | None => None
        | Some n => scanHeaders rest n (Value hf +:+ " ") h
        end
      else scanHeaders rest statusCode status (Header.Add h (Name hf) (Value hf))
  end.

(** The outer loop: read HEADERS frames until the status is not interim.
    [reads] are the successive results of [str.ReadHeaders()]. *)
Fixpoint readResponse (reads : list headersRead) (h : gmap string (list string))
  : (error + (Z * string * gmap string (list string))) * list event :=
  match reads with
  | [] => (inl endOfStream, [])
  | inl e :: _ => (inl e, [])
  | inr headers :: rest =>
      match scanHeaders headers 0 "" h with
      | None => (inl invalidStatus, [CancelWrite errorMessageError])
      | Some (statusCode, status, h') =>
          if (statusCode <? 100)%Z || (200 <=? statusCode)%Z
          then (inr (statusCode, status, h'), [])
          else readResponse rest h'
      end
  end.

(** The loop is at the iteration that has [reads'] left to read and [h']
    accumulated, having started from [reads] and [h]. *)
Inductive reaches : list headersRead → gmap string (list string) →
                    list headersRead → gmap string (list string) → Prop :=
| reaches_here reads h : reaches reads h reads h
| reaches_interim headers rest h statusCode status h1 reads' h' :
    scanHeaders headers 0 "" h = Some (statusCode, status, h1) →
    (100 ≤ statusCode < 200)%Z →
    reaches rest h1 reads' h' →
    reaches (inr headers :: rest) h reads' h'.

Definition requestGzip_of (disableCompression : bool) (req : Request) : bool :=
  negb disableCompression
  && negb (String.eqb (Method req) MethodHead)
  && String.eqb (Header.Get (ReqHeader req) "Accept-Encoding") ""
  && String.eqb (Header.Get (ReqHeader req) "Range") "".

(** The block of [doRequest] that sets [res.ContentLength]; [0] is the
    field left as it was. *)
Definition contentLength (h : gmap string (list string)) (statusCode : Z)
  (method : string) : Z :=
  let hasTransferEncoding := bool_decide (is_Some (h !! "Transfer-Encoding")) in
  let isInformational := (100 <=? statusCode)%Z && (statusCode <? 200)%Z in
  let isNoContent := (statusCode =? 204)%Z in
  let isSuccessfulConnect :=
    String.eqb method MethodConnect
    && (200 <=? statusCode)%Z && (statusCode <? 300)%Z in
  if negb hasTransferEncoding && negb isInformational
     && negb isNoContent && negb isSuccessfulConnect then
    match h !! "Content-Length" with
    | Some [clen] =>
        match Strconv.ParseInt10 64 clen with
        | Some clen64 => clen64
        | None => (-1)%Z
        end
    | _ => (-1)%Z
    end
  else 0%Z.

(** [doRequest]. [writeErr] is what [c.writeRequest] returns. *)
Definition doRequest (disableCompression : bool) (req : Request)
  (writeErr : option error) (reads : list headersRead)
  : (error + Response) * list event :=
  let requestGzip := requestGzip_of disableCompression req in
  match writeErr with
  | Some e => (inl e, [WriteRequest requestGzip])
  | None =>
      match readResponse reads ∅ with
      | (inl e, evs) => (inl e, WriteRequest requestGzip :: evs)
      | (inr (statusCode, status, h), evs) =>
          let clen := contentLength h statusCode (Method req) in
          if requestGzip && String.eqb (Header.Get h "Content-Encoding") "gzip" then
            (inr {| StatusCode := statusCode; Status := status;
                    Header := Header.Del (Header.Del h "Content-Encoding")
                                         "Content-Length";
                    ContentLength := (-1)%Z;
                    Uncompressed := true;
                    Body := GzipReader |},
             WriteRequest requestGzip :: evs)
          else
            (inr {| StatusCode := statusCode; Status := status;
                    Header := h;
                    ContentLength := clen;
                    Uncompressed := false;
                    Body := RespBody |},
             WriteRequest requestGzip :: evs)
      end
  end.

(** What [RoundTrip] meets before and inside [doRequest]. *)
Record exchange : Type := mkExchange {
  authorityMatches : bool;       (* the request is for this client's authority *)
  handshakeErr : option error;   (* c.handshakeErr after dialOnce *)
  ctxDoneFirst : bool;           (* the request context ends before the handshake *)
  openErr : option error;        (* c.conn.OpenRequestStream *)
  writeErr : option error;       (* c.writeRequest *)
  reads : list headersRead;      (* str.ReadHeaders, call after call *)
}.

Definition wrongClient : error :=
  OtherError "http3 client BUG: RoundTrip called for the wrong client".

Definition contextErr : error := OtherError "context canceled".

(** The request as it is sent: the 0-RTT method becomes GET. *)
Definition sentRequest (req : Request) : Request :=
  if String.eqb (Method req) MethodGet0RTT
  then {| Method := MethodGet; ReqHeader := ReqHeader req |}
  else req.

(** The type switch on the error of [doRequest]. *)
Definition onError (err : error) : event :=
  match err with
  | FrameTypeError _ _ => SessCloseWithError errorFrameUnexpected err
  | FrameLengthError _ _ _ => CancelWrite errorFrameError
  | _ => CancelWrite errorGeneralProtocolError
  end.

Definition RoundTrip (disableCompression : bool) (x : exchange) (req : Request)
  : (error + Response) * list event :=
  if negb (authorityMatches x) then (inl wrongClient, [])
  else
    match handshakeErr x with
    | Some e => (inl e, [])
    | None =>
        if negb (String.eqb (Method req) MethodGet0RTT) && ctxDoneFirst x
        then (inl contextErr, [])
        else
          match openErr x with
          | Some e => (inl e, [])
          | None =>
              let '(res, evs) :=
                doRequest disableCompression (sentRequest req)
                          (writeErr x) (reads x) in
              match res with
              | inl err =>
                  (inl err, [GoCancelObserver] ++ evs ++ [CloseReqDone; onError err])
              | inr r => (inr r, [GoCancelObserver] ++ evs)
              end
          end
    end.

(** [RoundTrip] gets as far as calling [doRequest]. *)
Definition callsDoRequest (x : exchange) (req : Request) : bool :=
  authorityMatches x
  && bool_decide (handshakeErr x = None)
  && negb (negb (String.eqb (Method req) MethodGet0RTT) && ctxDoneFirst x)
  && bool_decide (openErr x = None).

(** The three actions of the error classification. *)
Definition classified (e : event) : bool :=
  match e with
  | SessCloseWithError code _ => (code =? errorFrameUnexpected)%N
  | CancelWrite code =>
      (code =? errorFrameError)%N || (code =? errorGeneralProtocolError)%N
  | _ => false
  end.

(** The content length as the specification words it, over the headers,
    the status and the request method of a response. *)
Definition specContentLength (h : gmap string (list string)) (statusCode : Z)
  (method : string) : Z :=
  if bool_decide (is_Some (h !! "Transfer-Encoding")) then 0%Z
  else if bool_decide (100 ≤ statusCode ≤ 199)%Z then 0%Z
  else if bool_decide (statusCode = 204%Z) then 0%Z
  else if bool_decide (method = MethodConnect ∧ (200 ≤ statusCode ≤ 299)%Z) then 0%Z
  else
    match h !! "Content-Length" with
    | Some [v] => default (-1)%Z (Strconv.ParseInt10 64 v)
    | _ => (-1)%Z
    end.

End Client.

(* ===================================================================== *)
(** * body.go: what a run of calls amounts to *)
(* ===================================================================== *)

Module BodyUse.
Import Errors Body.

(** A call after which the user is done with the response: [Close], or a
    [Read] that returned an error. *)
Definition finishes (c : call) : bool :=
  match c with
  | CallClose => true
  | CallRead _ NoErr => false
  | CallRead _ _ => true
  end.

Definition eof_read (c : call) : bool :=
  match c with
  | CallRead _ EOF => true
  | _ => false
  end.

Definition occurrences (e : event) (evs : list event) : nat :=
  length (List.filter (λ e', bool_decide (e' = e)) evs).

End BodyUse.

(* ===================================================================== *)
(** * quicvarint *)
(* ===================================================================== *)

(** Modelled from the spec: package [quicvarint] is not among the sources.
    A varint is 1, 2, 4 or 8 bytes long, most significant byte first; the
    two high bits of the first byte give the length, the other bits the
    value, which is below [2^62]. *)
Module Varint.

Definition byte_of (n : N) : Byte.byte :=
  default Byte.x00 (Byte.of_N (n mod 256)%N).

(** The [k] low bytes of [v], most significant first. *)
Fixpoint be (k : nat) (v : N) : list Byte.byte :=
  match k with
  | O => []
  | S k' => byte_of (v / 256 ^ N.of_nat k')%N :: be k' v
  end.

Fixpoint be_value (acc : N) (bs : list Byte.byte) : N :=
  match bs with
  | [] => acc
  | b :: bs' => be_value (acc * 256 + Byte.to_N b)%N bs'
  end.

(** [quicvarint.Len]; [None]: the value does not fit 62 bits (a panic). *)
Definition Len (v : N) : option nat :=
  if (v <? 2 ^ 6)%N then Some 1
  else if (v <? 2 ^ 14)%N then Some 2
  else if (v <? 2 ^ 30)%N then Some 4
  else if (v <? 2 ^ 62)%N then Some 8
  else None.

(** The length bits, in place above the value. *)
Definition tag (k : nat) : N :=
  match k with
  | 2 => 0x4000%N
  | 4 => 0x80000000%N
  | 8 => 0xc000000000000000%N
  | _ => 0%N
  end.

(** [quicvarint.Write]: the shortest encoding. *)
Definition Write (v : N) : option (list Byte.byte) :=
  match Len v with
  | Some k => Some (be k (v + tag k))
  | None => None
  end.

(** [quicvarint.Read]: the value and the bytes after it; [None] when the
    bytes end before the varint does. *)
Definition Read (bs : list Byte.byte) : option (N * list Byte.byte) :=
  match bs with
  | [] => None
  | b :: rest =>
      let first := Byte.to_N b in
      let more := N.to_nat (N.shiftl 1 (N.shiftr first 6)) - 1 in
      if length rest <? more then None
      else Some (be_value (N.land first 0x3f) (take more rest), drop more rest)
  end.

End Varint.

(* ===================================================================== *)
(** * The connection engine: consumers of the demultiplex tables *)
(* ===================================================================== *)

Module Demux.
Import Errors Conn.

Definition maxBufferedDatagrams : nat := 10.

(** A [select] without a default case: [ready] are the cases that can
    proceed, in source order, and [pick] is Go's choice among them; with
    none ready the goroutine waits. *)
Definition select {A : Type} (ready : list A) (pick : nat) : option A :=
  ready !! (pick mod length ready).

(** What a receiving call comes back with. *)
Inductive accepted (A : Type) : Type :=
| Got (a : A)
| Stopped (e : error)
| Waits.
Arguments Got {A} a.
Arguments Stopped {A} e.
Arguments Waits {A}.

(** [acceptStream] and [acceptUniStream]: the [ctx] argument is not used;
    [sessDone] says whether the context of the session has ended. *)
Definition acceptStream (c : connection) (sessionID : N) (sessDone : bool)
  (pick : nat) : connection * accepted Stream :=
  let '(c1, ch) := incomingStreamsChan c sessionID in
  let receive :=
    match ch with
    | str :: rest =>
        [(set_incomingStreams (<[sessionID := rest]> (incomingStreams c1)) c1,
          Got str)]
    | [] => []
    end in
  let done := if sessDone then [(c1, Stopped contextCanceled)] else [] in
  default (c1, Waits) (select (receive ++ done) pick).

Definition acceptUniStream (c : connection) (sessionID : N) (sessDone : bool)
  (pick : nat) : connection * accepted Stream :=
  let '(c1, ch) := incomingUniStreamsChan c sessionID in
  let receive :=
    match ch with
    | str :: rest =>
        [(set_incomingUniStreams (<[sessionID := rest]> (incomingUniStreams c1)) c1,
          Got str)]
    | [] => []
    end in
  let done := if sessDone then [(c1, Stopped contextCanceled)] else [] in
  default (c1, Waits) (select (receive ++ done) pick).

(** The connection with its third table and the [sync.Once] of the
    datagram reader. *)
Record demux : Type := mkDemux {
  conn : connection;
  incomingDatagramsOnce : bool;               (* [true]: done *)
  incomingDatagrams : gmap N (list (list Byte.byte));
}.

Definition incomingDatagramsChan (d : demux) (sessionID : N)
  : demux * list (list Byte.byte) :=
  match incomingDatagrams d !! sessionID with
  | Some ch => (d, ch)
  | None =>
      (mkDemux (conn d) (incomingDatagramsOnce d)
               (<[sessionID := []]> (incomingDatagrams d)), [])
  end.

Definition cleanup (d : demux) (sessionID : N) : demux :=
  mkDemux
    (set_incomingUniStreams (delete sessionID (incomingUniStreams (conn d)))
       (set_incomingStreams (delete sessionID (incomingStreams (conn d))) (conn d)))
    (incomingDatagramsOnce d)
    (delete sessionID (incomingDatagrams d)).

(** What the datagram reader did with one datagram. *)
Inductive routed : Type :=
| Dropped                  (* [continue] *)
| Delivered (sessionID : N)
| SendWaits                (* the channel is full and the session lives *)
| Returned.                (* the session has ended *)

(** The body of the loop of [handleIncomingDatagrams] for one datagram. *)
Definition routeDatagram (d : demux) (msg : list Byte.byte) (sessDone : bool)
  (pick : nat) : demux * routed :=
  match Varint.Read msg with
  | None => (d, Dropped)
  | Some (sessionID, _) =>
      match Varint.Len sessionID with
      | None => (d, Dropped)          (* not reached: the value has 62 bits *)
      | Some n =>
          let msg := drop n msg in
          if negb (isClientBidi sessionID) then (d, Dropped)
          else
            let '(d1, ch) := incomingDatagramsChan d sessionID in
            let send :=
              if Nat.ltb (length ch) maxBufferedDatagrams then
                [(mkDemux (conn d1) (incomingDatagramsOnce d1)
                          (<[sessionID := ch ++ [msg]]> (incomingDatagrams d1)),
                  Delivered sessionID)]
              else [] in
            let done := if sessDone then [(d1, Returned)] else [] in
            default (d1, SendWaits) (select (send ++ done) pick)
      end
  end.

(** One turn of the loop: what [ReceiveMessage] gives, and the state of the
    session context and Go's choice at the [select]. *)
Record arrival : Type := mkArrival {
  received : error + list Byte.byte;
  sessDone : bool;
  pick : nat;
}.

(** [handleIncomingDatagrams] over the datagrams that arrive; the result
    says how each one was routed, up to where the loop returns or waits. *)
Fixpoint handleIncomingDatagrams (d : demux) (arrivals : list arrival)
  : demux * list routed :=
  match arrivals with
  | [] => (d, [])
  | a :: rest =>
      match received a with
      | inl _ => (d, [Returned])
      | inr msg =>
          let '(d1, r) := routeDatagram d msg (sessDone a) (pick a) in
          match r with
          | Returned | SendWaits => (d1, [r])
          | _ =>
              let '(d2, rs) := handleIncomingDatagrams d1 rest in
              (d2, r :: rs)
          end
      end
  end.

(** [readDatagram]: the first call starts the datagram reader. [started]
    tells whether this call did. [ctxErr] is [ctx.Err()] once [ctx] has
    ended. *)
Definition readDatagram (d : demux) (sessionID : N) (ctxErr : option error)
  (sessDone : bool) (pick : nat) : demux * bool * accepted (list Byte.byte) :=
  let started := negb (incomingDatagramsOnce d) in
  let d0 := mkDemux (conn d) true (incomingDatagrams d) in
  let '(d1, ch) := incomingDatagramsChan d0 sessionID in
  let receive :=
    match ch with
    | msg :: rest =>
        [(mkDemux (conn d1) (incomingDatagramsOnce d1)
                  (<[sessionID := rest]> (incomingDatagrams d1)), Got msg)]
    | [] => []
    end in
  let ctx := match ctxErr with Some e => [(d1, Stopped e)] | None => [] end in
  let sess := if sessDone then [(d1, Stopped contextCanceled)] else [] in
  let '(d2, r) := default (d1, Waits) (select (receive ++ ctx ++ sess) pick) in
  (d2, started, r).

(** What [writeDatagram] hands to [SendMessage]; a session id of more than
    62 bits makes [quicvarint.Len] panic. The buffer takes the whole
    message, so the length check after [buf.Write] never fails. *)
Inductive written : Type :=
| WritePanics
| Sent (bytes : list Byte.byte) (err : option error).

Definition writeDatagram (sessionID : N) (msg : list Byte.byte)
  (sendErr : option error) : written :=
  match Varint.Write sessionID with
  | Some enc => Sent (enc ++ msg) sendErr
  | None => WritePanics
  end.

(** Every channel of a table holds at most [n] values. *)
Definition bounded {A : Type} (n : nat) (m : gmap N (list A)) : Prop :=
  ∀ k ch, m !! k = Some ch → length ch ≤ n.

(** Streams with WEBTRANSPORT_STREAM frames for one session, handled one
    after the other. *)
Fixpoint deliverAll (WebTransportEnabled : gmap N N → bool) (c : connection)
  (sessionID : N) (strs : list Stream) : connection :=
  match strs with
  | [] => c
  | str :: strs' =>
      deliverAll WebTransportEnabled
        (fst (handleIncomingStream WebTransportEnabled c str
                [NextFrame FrameTypeWebTransportStream sessionID]))
        sessionID strs'
  end.

(** [n] calls of [acceptStream] in a row while the session lives. *)
Fixpoint acceptMany (c : connection) (sessionID : N) (n : nat)
  : connection * list (accepted Stream) :=
  match n with
  | O => (c, [])
  | S n' =>
      let '(c1, r) := acceptStream c sessionID false 0 in
      let '(c2, rs) := acceptMany c1 sessionID n' in
      (c2, r :: rs)
  end.

(** Two connection values that differ at most in the table of incoming
    bidirectional streams. *)
Definition same_but_streams (c c' : connection) : Prop :=
  settings c' = settings c
  ∧ peerSettingsDone c' = peerSettingsDone c
  ∧ peerSettings c' = peerSettings c
  ∧ peerSettingsErr c' = peerSettingsErr c
  ∧ peerStreams c' = peerStreams c
  ∧ incomingUniStreams c' = incomingUniStreams c.

(** Two connection values that differ at most in the slots of the
    control-like streams and in the table of incoming unidirectional
    streams. *)
Definition same_but_uni (c c' : connection) : Prop :=
  settings c' = settings c
  ∧ peerSettingsDone c' = peerSettingsDone c
  ∧ peerSettings c' = peerSettings c
  ∧ peerSettingsErr c' = peerSettingsErr c
  ∧ incomingStreams c' = incomingStreams c.

End Demux.

(* ===================================================================== *)
(** * errors.go: the names of the error codes *)
(* ===================================================================== *)

Module ErrorString.
Import Errors.

(** [errorCode.String]; the default case is
    [fmt.Sprintf("unknown error code: %#x", uint64(e))]. *)
Definition String (e : errorCode) : string :=
  if (e =? errorNoError)%N then "H3_NO_ERROR"
  else if (e =? errorGeneralProtocolError)%N then "H3_GENERAL_PROTOCOL_ERROR"
  else if (e =? errorInternalError)%N then "H3_INTERNAL_ERROR"
  else if (e =? errorStreamCreationError)%N then "H3_STREAM_CREATION_ERROR"
  else if (e =? errorClosedCriticalStream)%N then "H3_CLOSED_CRITICAL_STREAM"
  else if (e =? errorFrameUnexpected)%N then "H3_FRAME_UNEXPECTED"
  else if (e =? errorFrameError)%N then "H3_FRAME_ERROR"
  else if (e =? errorExcessiveLoad)%N then "H3_EXCESSIVE_LOAD"
  else if (e =? errorIDError)%N then "H3_ID_ERROR"
  else if (e =? errorSettingsError)%N then "H3_SETTINGS_ERROR"
  else if (e =? errorMissingSettings)%N then "H3_MISSING_SETTINGS"
  else if (e =? errorRequestRejected)%N then "H3_REQUEST_REJECTED"
  else if (e =? errorRequestCanceled)%N then "H3_REQUEST_CANCELLED"
  else if (e =? errorRequestIncomplete)%N then "H3_INCOMPLETE_REQUEST"
  else if (e =? errorMessageError)%N then "H3_MESSAGE_ERROR"
  else if (e =? errorConnectError)%N then "H3_CONNECT_ERROR"
  else if (e =? errorVersionFallback)%N then "H3_VERSION_FALLBACK"
  else if (e =? errorWebTransportBufferedStreamRejected)%N
       then "H3_WEBTRANSPORT_BUFFERED_STREAM_REJECTED"
  else "unknown error code: " +:+ HexString.of_N e.

(** The codes with a name of their own. *)
Definition named : list errorCode :=
  [ errorNoError; errorGeneralProtocolError; errorInternalError;
    errorStreamCreationError; errorClosedCriticalStream; errorFrameUnexpected;
    errorFrameError; errorExcessiveLoad; errorIDError; errorSettingsError;
    errorMissingSettings; errorRequestRejected; errorRequestCanceled;
    errorRequestIncomplete; errorMessageError; errorConnectError;
    errorVersionFallback; errorWebTransportBufferedStreamRejected ].

End ErrorString.

(* ===================================================================== *)
(** * The client: writing the request *)
(* ===================================================================== *)

Module Sender.
Import Errors Client.

(** What [writeRequest] looks at in the request: the method, whether
    [req.Body] is non-nil, and [len(req.Trailer)]. *)
Record outgoing : Type := mkOutgoing {
  oMethod : string;
  oHasBody : bool;
  oTrailers : nat;
}.

Inductive event : Type :=
| WriteHeaders (gzip : bool)   (* str.WriteHeaders(fields); [gzip]: with the gzip header *)
| StreamClose                  (* str.Close() *)
| GoSendBody                   (* go func() { ... }() *)
| Copy                         (* io.Copy(str.DataWriter(), req.Body) *)
| BodyClose                    (* req.Body.Close() *)
| WriteTrailers                (* str.WriteHeaders(Trailers(req.Trailer)) *)
| CancelWrite (code : N)       (* str.CancelWrite(code) *)
| NilBody.                     (* a method call on the nil [req.Body]: a panic *)

#[global] Instance event_eq_dec : EqDecision event.
Proof. solve_decision. Defined.

(** The results of the calls made while sending. *)
Record sending : Type := mkSending {
  headersErr : option error;        (* RequestHeaders(req) *)
  writeHeadersErr : option error;   (* str.WriteHeaders(fields) *)
  copyErr : option error;           (* io.Copy *)
  trailersErr : option error;       (* str.WriteHeaders(Trailers(...)) *)
}.

(** The send side is closed unless the method is CONNECT. *)
Definition closing (req : outgoing) : list event :=
  if negb (String.eqb (oMethod req) MethodConnect) then [StreamClose] else [].

Definition writeRequest (req : outgoing) (requestGzip : bool) (s : sending)
  : option error * list event :=
  match headersErr s with
  | Some e => (Some e, [])
  | None =>
      match writeHeadersErr s with
      | Some e => (Some e, [WriteHeaders requestGzip])
      | None =>
          if negb (oHasBody req) && Nat.eqb (oTrailers req) 0
          then (None, WriteHeaders requestGzip :: closing req)
          else (None, [WriteHeaders requestGzip; GoSendBody])
      end
  end.

(** The goroutine that sends body and trailers. With a nil body [io.Copy]
    calls [Read] on a nil interface. *)
Definition sendBody (req : outgoing) (s : sending) : list event :=
  if negb (oHasBody req) then [NilBody]
  else
    [Copy; BodyClose] ++
    match copyErr s with
    | Some _ => [CancelWrite errorRequestCanceled]
    | None =>
        if Nat.ltb 0 (oTrailers req) then
          match trailersErr s with
          | Some _ => [WriteTrailers; CancelWrite errorRequestCanceled]
          | None => WriteTrailers :: closing req
          end
        else closing req
    end.

(** Everything done to the stream for one request: [writeRequest] and,
    when it starts one, the sending goroutine. *)
Definition sendRequest (req : outgoing) (requestGzip : bool) (s : sending)
  : option error * list event :=
  let '(err, evs) := writeRequest req requestGzip s in
  if bool_decide (GoSendBody ∈ evs) then (err, evs ++ sendBody req s)
  else (err, evs).

Definition occurrences (e : event) (evs : list event) : nat :=
  length (List.filter (λ e', bool_decide (e' = e)) evs).

End Sender.

(* ===================================================================== *)
(** * Setting up connections and clients *)
(* ===================================================================== *)

Module Setup.
Import Errors.
Import Conn (session, sessPerspective, SupportsDatagrams, Perspective,
             PerspectiveClient, PerspectiveServer, connection,
             StreamTypeControl).

Inductive event : Type :=
| OpenUniStream                           (* conn.session.OpenUniStream() *)
| WriteStreamType (t : N)                 (* quicvarint.Write(w, t) *)
| WriteSettingsFrame (s : gmap N N)       (* conn.settings.writeFrame(w) *)
| GoHandleIncomingUniStreams.             (* go conn.handleIncomingUniStreams() *)

#[global] Instance event_eq_dec : EqDecision event.
Proof. solve_decision. Defined.

(** A value of interface type [ClientConn] or [ServerConn]: nil, a nil
    [*connection] inside a non-nil interface, or a connection. *)
Inductive connRef : Type :=
| NilInterface
| NilPointer
| ConnAt (c : connection).

Definition acceptOnClient : error := OtherError "Accept called on client session".
Definition openOnServer : error := OtherError "Open called on server session".

Section WithSettings.

(** [Settings.EnableDatagrams] belongs to the settings codec. *)
Variable EnableDatagrams : gmap N N → gmap N N.

(** [newConn]: [settings] is [None] for a nil map; [openErr] is the error
    of [OpenUniStream]. *)
Definition newConn (s : session) (settings : option (gmap N N))
  (openErr : option error) : (option connection * option error) * list event :=
  let settings :=
    match settings with
    | Some m => m
    | None => if SupportsDatagrams s then EnableDatagrams ∅ else ∅
    end in
  match openErr with
  | Some e => ((None, Some e), [OpenUniStream])
  | None =>
      ((Some (Conn.newConn settings), None),
       [OpenUniStream; WriteStreamType StreamTypeControl;
        WriteSettingsFrame settings; GoHandleIncomingUniStreams])
  end.

(** The pointer returned by [newConn] as an interface value. *)
Definition asInterface (p : option connection) : connRef :=
  match p with
  | Some c => ConnAt c
  | None => NilPointer
  end.

Definition Accept (s : session) (settings : option (gmap N N))
  (openErr : option error) : (connRef * option error) * list event :=
  match sessPerspective s with
  | PerspectiveServer =>
      let '((p, err), evs) := newConn s settings openErr in
      ((asInterface p, err), evs)
  | PerspectiveClient => ((NilInterface, Some acceptOnClient), [])
  end.

Definition Open (s : session) (settings : option (gmap N N))
  (openErr : option error) : (connRef * option error) * list event :=
  match sessPerspective s with
  | PerspectiveClient =>
      let '((p, err), evs) := newConn s settings openErr in
      ((asInterface p, err), evs)
  | PerspectiveServer => ((NilInterface, Some openOnServer), [])
  end.

End WithSettings.

End Setup.

Module Dial.
Import Errors.
Import Conn (session, sessPerspective, SupportsDatagrams, Perspective,
             PerspectiveClient, PerspectiveServer, connection).




(** The fields of [client] that [dial] and [Close] use. *)
Record client : Type := mkClient {
  sess : option session;            (* [None]: nil *)
  conn : Setup.connRef;
}.

Inductive event : Type :=
| DialSession                         (* c.dialer(...) or dialAddr(...) *)
| Setup (e : Setup.event)             (* inside Open *)
| SessCloseWithError (code : N).      (* c.sess.CloseWithError(code, "") *)

#[global] Instance event_eq_dec : EqDecision event.
Proof. solve_decision. Defined.

Section WithSettings.

Variable DatagramsEnabled : gmap N N → bool.
Variable WebTransportEnabled : gmap N N → bool.
Variable EnableDatagramsSetting : gmap N N → gmap N N.

(** [protocol.VersionTLS] and [versionToALPN] come from the QUIC
    packages. *)
Variable VersionTLS : N.
Variable versionToALPN : N → string.



(** [dial]: [dialed] is what the dialer returns, [openErr] what
    [OpenUniStream] returns inside [Open]. *)
Definition dial (settings : option (gmap N N)) (dialed : error + session)
  (openErr : option error) : client * option error * list event :=
  match dialed with
  | inl e => (mkClient None Setup.NilInterface, Some e, [DialSession])
  | inr s =>
      let '((c, err), evs) := Setup.Open EnableDatagramsSetting s settings openErr in
      match err with
      | Some e =>
          (mkClient (Some s) c, Some e,
           [DialSession] ++ map Setup evs ++ [SessCloseWithError errorInternalError])
      | None => (mkClient (Some s) c, None, [DialSession] ++ map Setup evs)
      end
  end.

End WithSettings.

(** [client.Close]: [closeErr] is what [CloseWithError] returns. *)
Definition Close (c : client) (closeErr : option error)
  : option error * list event :=
  match conn c with
  | Setup.NilInterface => (None, [])
  | _ => (closeErr, [SessCloseWithError errorNoError])
  end.

End Dial.

(* ===================================================================== *)
(** * The connection engine: request streams *)
(* ===================================================================== *)

Module RequestStreams.
Import Errors.
Import Conn (Stream, Perspective, PerspectiveClient, PerspectiveServer,
             contextCanceled).

(** [FrameReader]: the stream and the frame header it stands at. *)
Record frameReader : Type := mkReader { R : Stream; Type_ : N; N_ : N }.

(** The fields of [connection] behind [AcceptRequestStream] and
    [OpenRequestStream]. The channel is the list of the readers buffered
    in it, and a flag for [close]. *)
Record requests : Type := mkRequests {
  incomingStreamsOnce : bool;                     (* [true]: done *)
  incomingStreamsErr : option error;
  incomingRequestStreams : list frameReader;
  requestStreamsClosed : bool;
}.

Inductive event : Type :=
| GoHandleIncomingStreams        (* go conn.handleIncomingStreams() *)
| OpenStreamSync.                (* conn.session.OpenStreamSync(ctx) *)

#[global] Instance event_eq_dec : EqDecision event.
Proof. solve_decision. Defined.

(** What the two calls return: a request stream made by
    [newRequestStream] from a stream and a frame header, or a nil stream
    with an error value (which may itself be nil), or nothing yet. *)
Inductive outcome : Type :=
| Request (str : Stream) (frameType n : N)
| NoRequest (err : option error)
| Waiting.

Definition serverOnClient : error := OtherError "server method called on client connection".
Definition clientOnServer : error := OtherError "client method called on server connection".

(** [incomingStreamsOnce.Do(...)] *)
Definition once (q : requests) : requests * list event :=
  if incomingStreamsOnce q then (q, [])
  else (mkRequests true (incomingStreamsErr q) (incomingRequestStreams q)
                   (requestStreamsClosed q), [GoHandleIncomingStreams]).

Definition AcceptRequestStream (p : Perspective) (q : requests)
  (ctxErr : option error) (sessDone : bool) (pick : nat) : requests * list event * outcome :=
  match p with
  | PerspectiveClient => (q, [], NoRequest (Some serverOnClient))
  | PerspectiveServer =>
      let '(q1, evs) := once q in
      let receive :=
        match incomingRequestStreams q1 with
        | fr :: rest =>
            [(mkRequests (incomingStreamsOnce q1) (incomingStreamsErr q1) rest
                         (requestStreamsClosed q1),
              Request (R fr) (Type_ fr) (N_ fr))]
        | [] =>
            if requestStreamsClosed q1
            then [(q1, NoRequest (incomingStreamsErr q1))]
            else []
        end in
      let ctx :=
        match ctxErr with Some e => [(q1, NoRequest (Some e))] | None => [] end in
      let sess := if sessDone then [(q1, NoRequest (Some contextCanceled))] else [] in
      let '(q2, r) :=
        default (q1, Waiting) (Demux.select (receive ++ ctx ++ sess) pick) in
      (q2, evs, r)
  end.

(** [OpenRequestStream]: [opened] is what [OpenStreamSync] returns. *)
Definition OpenRequestStream (p : Perspective) (q : requests)
  (opened : error + Stream) : requests * list event * outcome :=
  match p with
  | PerspectiveServer => (q, [], NoRequest (Some clientOnServer))
  | PerspectiveClient =>
      match opened with
      | inl e => (q, [OpenStreamSync], NoRequest (Some e))
      | inr str =>
          let '(q1, evs) := once q in
          (q1, OpenStreamSync :: evs, Request str 0 0)
      end
  end.


(** A call on the connection. *)
Inductive call : Type :=
| CallAccept (ctxErr : option error) (sessDone : bool) (pick : nat)
| CallOpen (opened : error + Stream).

Definition step (p : Perspective) (q : requests) (c : call)
  : requests * list event * outcome :=
  match c with
  | CallAccept ctxErr sessDone pick => AcceptRequestStream p q ctxErr sessDone pick
  | CallOpen opened => OpenRequestStream p q opened
  end.

Fixpoint run (p : Perspective) (q : requests) (cs : list call)
  : requests * list event :=
  match cs with
  | [] => (q, [])
  | c :: cs' =>
      let '(q1, e1, _) := step p q c in
      let '(q2, e2) := run p q1 cs' in
      (q2, e1 ++ e2)
  end.

Definition starts (evs : list event) : nat :=
  length (List.filter (λ e, bool_decide (e = GoHandleIncomingStreams)) evs).

(** [n] calls of [AcceptRequestStream] in a row, no context ended. *)
Fixpoint acceptMany (q : requests) (n : nat) : requests * list outcome :=
  match n with
  | O => (q, [])
  | S n' =>
      let '(q1, _, r) := AcceptRequestStream PerspectiveServer q None false 0 in
      let '(q2, rs) := acceptMany q1 n' in
      (q2, r :: rs)
  end.

(** A call that gets as far as [incomingStreamsOnce.Do]. *)
Definition reachesOnce (p : Perspective) (c : call) : bool :=
  match p, c with
  | PerspectiveServer, CallAccept _ _ _ => true
  | PerspectiveClient, CallOpen (inr _) => true
  | _, _ => false
  end.

End RequestStreams.

(* ===================================================================== *)
(** * Properties: error codes *)
(* ===================================================================== *)

Module ErrorsFacts.
Import Errors.

(** C9: the HTTP/3 error-code constants have the values of the
    specification's table: NO_ERROR=0x100 up to VERSION_FALLBACK=0x110 in
    steps of one, and WEBTRANSPORT_BUFFERED_STREAM_REJECTED=0x3994bd84. *)
Theorem error_codes_match_table :
  [ errorNoError; errorGeneralProtocolError; errorInternalError;
    errorStreamCreationError; errorClosedCriticalStream; errorFrameUnexpected;
    errorFrameError; errorExcessiveLoad; errorIDError; errorSettingsError;
    errorMissingSettings; errorRequestRejected; errorRequestCanceled;
    errorRequestIncomplete; errorMessageError; errorConnectError;
    errorVersionFallback; errorWebTransportBufferedStreamRejected ]
  = [ 0x100; 0x101; 0x102; 0x103; 0x104; 0x105; 0x106; 0x107; 0x108; 0x109;
      0x10a; 0x10b; 0x10c; 0x10d; 0x10e; 0x10f; 0x110; 0x3994bd84 ]%N.
Proof. reflexivity. Qed.

End ErrorsFacts.

(* ===================================================================== *)
(** * Properties: the response body *)
(* ===================================================================== *)

Module BodyFacts.
Import Errors Body.

Lemma closes_app (a b : list event) : closes (a ++ b) = closes a + closes b.
Proof. unfold closes. by rewrite List.filter_app, length_app. Qed.

Lemma cancels_app (a b : list event) : cancels (a ++ b) = cancels a + cancels b.
Proof. unfold cancels. by rewrite List.filter_app, length_app. Qed.

(** [requestDone] closes the channel only when the flag is down and the
    channel is there, and then raises the flag. *)
Lemma requestDone_cases (r : body) :
  (reqDoneClosed r = false ∧ reqDone r = true ∧
   requestDone r = (mkBody (reqDone r) true (onTrailers r), [CloseReqDone]))
  ∨ ((reqDoneClosed r = true ∨ reqDone r = false) ∧ requestDone r = (r, [])).
Proof.
  unfold requestDone. destruct r as [d cl t]; simpl.
  destruct cl, d; simpl; auto.
Qed.

Lemma requestDone_closed (r : body) :
  reqDoneClosed r = true → requestDone r = (r, []).
Proof. intros H. unfold requestDone. by rewrite H. Qed.

(** A step either leaves the flag and closes nothing, or closes once and
    leaves the flag up. *)
Lemma step_closes (r : body) (c : call) :
  (closes (snd (step r c)) = 0 ∧
   reqDoneClosed (fst (step r c)) = reqDoneClosed r)
  ∨ (closes (snd (step r c)) = 1 ∧ reqDoneClosed r = false ∧
     reqDoneClosed (fst (step r c)) = true).
Proof.
  destruct c as [n err|]; unfold step, Read, Close.
  - destruct err; simpl; [by left | |].
    + destruct (requestDone_cases r) as [(Hc & Hd & ->)|(_ & ->)];
        [right | left]; by destruct (onTrailers r).
    + destruct (requestDone_cases r) as [(Hc & Hd & ->)|(_ & ->)]; simpl;
        [by right | by left].
  - destruct (requestDone_cases r) as [(Hc & Hd & ->)|(_ & ->)]; simpl;
      [by right | by left].
Qed.

Lemma run_cons (r : body) (c : call) (cs : list call) :
  run r (c :: cs) =
  (fst (run (fst (step r c)) cs), snd (step r c) ++ snd (run (fst (step r c)) cs)).
Proof.
  cbn [run]. destruct (step r c) as [r1 e1]; cbn [fst snd].
  by destruct (run r1 cs) as [r2 e2].
Qed.

Lemma run_closed (cs : list call) (r : body) :
  reqDoneClosed r = true → closes (snd (run r cs)) = 0.
Proof.
  revert r. induction cs as [|c cs IH]; intros r Hr; [done|].
  rewrite run_cons; simpl. rewrite closes_app.
  destruct (step_closes r c) as [[-> Hf]|(_ & Hf & _)]; [|congruence].
  rewrite IH; [done | congruence].
Qed.

Lemma run_closes_le (cs : list call) (r : body) : closes (snd (run r cs)) ≤ 1.
Proof.
  revert r. induction cs as [|c cs IH]; intros r; [simpl; unfold closes; simpl; lia|].
  rewrite run_cons; simpl. rewrite closes_app.
  destruct (step_closes r c) as [[-> _]|(-> & _ & Hf)].
  - apply IH.
  - rewrite run_closed by done. lia.
Qed.

Lemma step_cancels (r : body) (c : call) :
  cancels (snd (step r c)) = close_calls [c].
Proof.
  destruct c as [n err|]; unfold step, Read, Close.
  - destruct err; simpl; [done | |];
      destruct (requestDone_cases r) as [(_ & _ & ->)|(_ & ->)]; simpl;
      try done; by destruct (onTrailers r).
  - destruct (requestDone_cases r) as [(_ & _ & ->)|(_ & ->)]; by simpl.
Qed.

Lemma run_cancels (cs : list call) (r : body) :
  cancels (snd (run r cs)) = close_calls cs.
Proof.
  revert r. induction cs as [|c cs IH]; intros r; [done|].
  rewrite run_cons; simpl snd. rewrite cancels_app, step_cancels, IH.
  unfold close_calls. simpl. by destruct c.
Qed.

(** C10: whatever the body and whatever calls of [Read] and [Close] follow,
    [reqDone] is closed at most once, and not at all once the flag
    [reqDoneClosed] is up; [Close] returns nil and ends with
    [CancelRead(0x10c)] on the request stream, so a run issues as many such
    cancellations as it has calls of [Close]. *)
Theorem reqDone_closed_at_most_once (r : body) (cs : list call) :
  closes (snd (run r cs)) ≤ 1
  ∧ (reqDoneClosed r = true → closes (snd (run r cs)) = 0)
  ∧ (∃ r' evs, Close r = (r', None, evs ++ [CancelRead 0x10c%N]))
  ∧ cancels (snd (run r cs)) = close_calls cs.
Proof.
  split; [apply run_closes_le|].
  split; [apply run_closed|].
  split; [|apply run_cancels].
  unfold Close. destruct (requestDone r) as [r' evs]. by exists r', evs.
Qed.

End BodyFacts.

(* ===================================================================== *)
(** * Properties: the connection engine *)
(* ===================================================================== *)

Module ConnFacts.
Import Errors Conn.

(** Membership in an explicit list of events. *)
Ltac unfold_codes :=
  unfold errorGeneralProtocolError, errorStreamCreationError,
    errorFrameUnexpected, errorIDError, errorSettingsError,
    errorMissingSettings, errorRequestIncomplete,
    errorWebTransportBufferedStreamRejected in *.

Ltac list_mem :=
  cbn [fst snd] in *; unfold_codes;
  repeat match goal with H : _ ∈ _ |- _ => revert H end;
  rewrite ?elem_of_app, ?elem_of_cons, ?elem_of_nil;
  intuition (congruence || eauto).

(** ** Header size limits *)

(** C4, as stated, fails for the peer's limit: with the setting absent from
    the peer's SETTINGS the limit is 1 MiB and not 16 MiB. *)
Lemma peer_limit_default_is_1MiB :
  shown afterEmptySettings = Ready ∅
  ∧ peerMaxHeaderBytes afterEmptySettings false true = (1 * 1024 * 1024)%N
  ∧ peerMaxHeaderBytes afterEmptySettings false true ≠ (16 * 1024 * 1024)%N.
Proof. by vm_compute. Qed.

(** C4, amended: with MAX_FIELD_SECTION_SIZE absent or zero the limit from
    the local settings is 16 MiB, and the limit from the peer's settings is
    1 MiB ([http.DefaultMaxHeaderBytes]), also while the peer's settings
    cannot be read; a value above zero is the limit itself. *)
Theorem default_max_field_section_size (c : connection) (ctxDone pick : bool) :
  maxHeaderBytes c =
    match settings c !! SettingMaxFieldSectionSize with
    | None | Some 0%N => (16 * 1024 * 1024)%N
    | Some max => max
    end
  ∧ peerMaxHeaderBytes c ctxDone pick =
    match index_ok (fst (PeerSettings c ctxDone pick)) SettingMaxFieldSectionSize with
    | None | Some 0%N => (1 * 1024 * 1024)%N
    | Some max => max
    end.
Proof.
  split.
  - unfold maxHeaderBytes.
    destruct (settings c !! SettingMaxFieldSectionSize) as [[|p]|]; done.
  - unfold peerMaxHeaderBytes.
    destruct (PeerSettings c ctxDone pick) as [ps pe]; simpl.
    destruct (index_ok ps SettingMaxFieldSectionSize) as [[|p]|]; done.
Qed.

(** ** The control stream *)

Section ControlStream.
Variable DatagramsEnabled : gmap N N → bool.

Lemma handleControlStream_pending (sess : session) (c : connection)
  (fr : controlStream) :
  peerSettingsDone c = false →
  handleControlStream DatagramsEnabled sess c fr =
    let '(ps, perr) := readSettings fr in
    let c2 := set_peerSettingsDone true (set_peerSettings ps perr c) in
    let released := ClosePeerSettingsDone (shown c2) in
    match perr with
    | Some e => (c2, [released; CloseWithError errorMissingSettings (ErrorText e)])
    | None =>
        if DatagramsEnabled (default ∅ ps) && negb (SupportsDatagrams sess) then
          (set_peerSettingsErr
             (Some (ApplicationError errorSettingsError
                      "missing QUIC Datagram support")) c2,
           [released;
            CloseWithError errorSettingsError (Text "missing QUIC Datagram support")])
        else (c2, [released])
    end.
Proof.
  intros Hp. unfold handleControlStream.
  destruct (readSettings fr) as [ps perr]. by rewrite Hp.
Qed.

(** [readSettings] gives settings or an error, never both and never
    neither. *)
Lemma readSettings_cases (fr : controlStream) :
  (∃ s, readSettings fr = (Some s, None)) ∨ (∃ e, readSettings fr = (None, Some e)).
Proof.
  destruct fr as [e|t [e|s]]; simpl; [eauto | |];
    destruct (t =? FrameTypeSettings)%N; eauto.
Qed.

(** C6: on a connection whose latch is pending, the control-stream reader
    closes [peerSettingsDone] once and does not panic. If the first frame
    cannot be read, is not SETTINGS, or does not decode, the latch shows
    [Failed] with that error when it is released and the connection is
    closed with MISSING_SETTINGS (0x10a); otherwise the settings are stored,
    the latch shows [Ready] with them when it is released, and there is no
    close with MISSING_SETTINGS. *)
Theorem control_stream_releases_latch_once (sess : session) (c : connection)
  (fr : controlStream) :
  peerSettingsDone c = false →
  let r := handleControlStream DatagramsEnabled sess c fr in
  let failed e :=
    snd r = [ClosePeerSettingsDone (Failed e);
             CloseWithError 0x10a%N (ErrorText e)]
    ∧ shown (fst r) = Failed e in
  let ready s :=
    (∃ rest, snd r = ClosePeerSettingsDone (Ready s) :: rest)
    ∧ peerSettings (fst r) = Some s
    ∧ ¬ closes_with 0x10a%N (snd r) in
  shown c = Pending
  ∧ releases (snd r) = 1
  ∧ (Panic ∉ snd r)
  ∧ peerSettingsDone (fst r) = true
  ∧ match fr with
    | ControlNextErr e => failed e
    | ControlFrame t payload =>
        if bool_decide (t = FrameTypeSettings) then
          match payload with
          | inl e => failed e
          | inr s => ready s
          end
        else failed (FrameTypeError FrameTypeSettings t)
    end.
Proof.
  intros Hp r failed ready. subst r failed ready.
  rewrite handleControlStream_pending by done.
  split; [unfold shown; by rewrite Hp|].
  destruct fr as [e|t [e|s]]; simpl.
  - repeat split; try done. list_mem.
  - case_bool_decide as Ht.
    + subst t. simpl. repeat split; try done. list_mem.
    + apply N.eqb_neq in Ht. rewrite Ht. repeat split; try done. list_mem.
  - case_bool_decide as Ht.
    + subst t. simpl.
      destruct (DatagramsEnabled s && negb (SupportsDatagrams sess)); simpl;
        (repeat split; try done; [list_mem | eauto |
          intros [why Hin]; list_mem]).
    + apply N.eqb_neq in Ht. rewrite Ht. repeat split; try done. list_mem.
Qed.

(** C3, what the code does: with the latch pending, the reader closes with
    SETTINGS_ERROR and "missing QUIC Datagram support" exactly when the
    peer's settings were read, they advertise H3_DATAGRAM, and the QUIC
    session does not support datagrams. The local settings play no part. *)
Lemma settings_error_iff (sess : session) (c : connection) (fr : controlStream) :
  peerSettingsDone c = false →
  CloseWithError errorSettingsError (Text "missing QUIC Datagram support")
    ∈ snd (handleControlStream DatagramsEnabled sess c fr)
  ↔ (∃ s, readSettings fr = (Some s, None) ∧ DatagramsEnabled s = true)
    ∧ SupportsDatagrams sess = false.
Proof.
  intros Hp. rewrite handleControlStream_pending by done.
  destruct (readSettings_cases fr) as [[s ->]|[e ->]]; simpl.
  - destruct (DatagramsEnabled s) eqn:Hd, (SupportsDatagrams sess) eqn:Hs; simpl.
    + split; [list_mem | intros [_ ?]; done].
    + split; [eauto | list_mem].
    + split; [list_mem | intros [(s' & [= <-] & ?) _]; congruence].
    + split; [list_mem | intros [(s' & [= <-] & ?) _]; congruence].
  - split; [list_mem | intros [(s' & [=] & _) _]].
Qed.

(** C3 at the failing input: the local side did not enable H3_DATAGRAM, the
    peer advertises it, the session has no datagram support; the connection
    is closed with SETTINGS_ERROR (0x109) all the same. *)
Theorem settings_error_without_local_datagrams (sess : session)
  (local peer : gmap N N) :
  DatagramsEnabled local = false →
  DatagramsEnabled peer = true →
  SupportsDatagrams sess = false →
  snd (handleControlStream DatagramsEnabled sess (newConn local)
         (ControlFrame FrameTypeSettings (inr peer)))
  = [ClosePeerSettingsDone (Ready peer);
     CloseWithError 0x109%N (Text "missing QUIC Datagram support")].
Proof.
  intros _ Hpeer Hs. unfold handleControlStream. simpl.
  by rewrite Hpeer, Hs.
Qed.

End ControlStream.

Lemma control_stream_releases_latch_once_witness :
  let r := handleControlStream datagramSetting (mkSession PerspectiveClient true)
             (newConn ∅) (ControlFrame FrameTypeData (inr ∅)) in
  snd r = [ClosePeerSettingsDone (Failed (FrameTypeError FrameTypeSettings FrameTypeData));
           CloseWithError 0x10a%N
             (ErrorText (FrameTypeError FrameTypeSettings FrameTypeData))].
Proof.
  pose proof (control_stream_releases_latch_once datagramSetting
                (mkSession PerspectiveClient true) (newConn ∅)
                (ControlFrame FrameTypeData (inr ∅)) eq_refl) as H.
  simpl in H. destruct H as (_ & _ & _ & _ & H & _). exact H.
Defined.

Lemma settings_error_without_local_datagrams_witness :
  snd (handleControlStream datagramSetting (mkSession PerspectiveClient false)
         (newConn ∅) (ControlFrame FrameTypeSettings (inr {[ 0x276%N := 1%N ]})))
  = [ClosePeerSettingsDone (Ready {[ 0x276%N := 1%N ]});
     CloseWithError 0x109%N (Text "missing QUIC Datagram support")].
Proof.
  apply (settings_error_without_local_datagrams datagramSetting
           (mkSession PerspectiveClient false) ∅ {[ 0x276%N := 1%N ]});
    reflexivity.
Defined.

(** ** Peer-initiated unidirectional streams *)

Section UniStreams.
Variable WebTransportEnabled : gmap N N → bool.

Local Abbreviation handleUni := (handleIncomingUniStream WebTransportEnabled).
Local Abbreviation serveUni := (serveUniStreams WebTransportEnabled).

Lemma incomingUniStreamsChan_spec (c c1 : connection) (sid : N) (ch : list Stream) :
  incomingUniStreamsChan c sid = (c1, ch) →
  ch = default [] (incomingUniStreams c !! sid)
  ∧ incomingUniStreams c1 = <[sid := ch]> (incomingUniStreams c)
  ∧ incomingStreams c1 = incomingStreams c
  ∧ peerStreams c1 = peerStreams c.
Proof.
  unfold incomingUniStreamsChan.
  destruct (incomingUniStreams c !! sid) as [ch0|] eqn:Hl; intros [= <- <-]; simpl.
  - by rewrite insert_id.
  - done.
Qed.

(** The table of control-like streams after a handler has run. *)
Lemma handleUni_peerStreams (sess : session) (c : connection) (u : uniStream) :
  peerStreams (fst (handleUni sess c u)) =
  match utype u with
  | inr t =>
      if (t <? 4)%N then <[N.to_nat t := Some (ustr u)]> (peerStreams c)
      else peerStreams c
  | inl _ => peerStreams c
  end.
Proof.
  unfold handleIncomingUniStream.
  destruct (utype u) as [e|t]; [done|].
  destruct (t <? 4)%N; simpl;
    repeat (case_match; simpl; try done);
    match goal with
    | H : incomingUniStreamsChan _ _ = _ |- _ =>
        apply incomingUniStreamsChan_spec in H as (_ & _ & _ & ->); done
    end.
Qed.

Lemma handleUni_length (sess : session) (c : connection) (u : uniStream) :
  length (peerStreams (fst (handleUni sess c u))) = length (peerStreams c).
Proof.
  rewrite handleUni_peerStreams.
  destruct (utype u) as [e|t]; [done|].
  destruct (t <? 4)%N; [apply length_insert | done].
Qed.

(** A slot is taken after a handler has run when it was taken before or
    the stream just handled carries its tag. *)
Lemma handleUni_slot (sess : session) (c : connection) (u : uniStream) (t : N) :
  length (peerStreams c) = 4 → (t < 4)%N →
  is_Some (slot (fst (handleUni sess c u)) t)
  ↔ is_Some (slot c t) ∨ utype u = inr t.
Proof.
  intros Hlen Ht. unfold slot. rewrite handleUni_peerStreams.
  destruct (utype u) as [e|t'].
  - split; [by left | by intros [?|?]].
  - destruct (t' <? 4)%N eqn:Ht'.
    + destruct (decide (t' = t)) as [->|Hne].
      * rewrite list_lookup_insert_eq by lia. split; [by right | done].
      * rewrite list_lookup_insert_ne by lia.
        split; [by left | intros [?|?]; [done | congruence]].
    + apply N.ltb_ge in Ht'.
      split; [by left | intros [?|[= ->]]; [done | lia]].
Qed.

Lemma serveUni_cons (sess : session) (c : connection) (u : uniStream)
  (us : list uniStream) :
  serveUni sess c (u :: us) =
  (fst (serveUni sess (fst (handleUni sess c u)) us),
   snd (handleUni sess c u) ++ snd (serveUni sess (fst (handleUni sess c u)) us)).
Proof.
  cbn [serveUniStreams].
  destruct (handleUni sess c u) as [c1 e1]; cbn [fst snd].
  by destruct (serveUni sess c1 us) as [c2 e2].
Qed.

Lemma serveUni_slot (sess : session) (us : list uniStream) (c : connection) (t : N) :
  length (peerStreams c) = 4 → (t < 4)%N →
  length (peerStreams (fst (serveUni sess c us))) = 4
  ∧ (is_Some (slot (fst (serveUni sess c us)) t)
     ↔ is_Some (slot c t) ∨ ∃ p, p ∈ us ∧ utype p = inr t).
Proof.
  revert c. induction us as [|u us IH]; intros c Hlen Ht.
  - simpl. split; [done|]. split; [by left|]. intros [?|(p & Hp & _)]; [done|].
    by apply elem_of_nil in Hp.
  - rewrite serveUni_cons; cbn [fst].
    destruct (IH (fst (handleUni sess c u))) as [Hl Hs];
      [by rewrite handleUni_length | done |].
    split; [done|]. rewrite Hs, handleUni_slot by done.
    split.
    + intros [[?|Hu]|(p & Hp & Hpt)]; [by left | |].
      * right. exists u. split; [apply elem_of_cons; by left | done].
      * right. exists p. split; [apply elem_of_cons; by right | done].
    + intros [?|(p & Hp & Hpt)]; [by left; left|].
      apply elem_of_cons in Hp as [->|Hp]; [by left; right|].
      right. by exists p.
Qed.

(** The control-stream reader is started for a stream tagged CONTROL whose
    slot is free, and for no other stream. *)
Lemma handleUni_starts (sess : session) (c : connection) (u : uniStream) :
  control_starts (snd (handleUni sess c u)) =
  if bool_decide (utype u = inr StreamTypeControl)
     && bool_decide (slot c StreamTypeControl = None)
  then 1 else 0.
Proof.
  unfold handleIncomingUniStream.
  destruct (utype u) as [e|t]; [done|].
  destruct (decide (t = StreamTypeControl)) as [->|Hne].
  - simpl. destruct (slot c StreamTypeControl) as [s|] eqn:Hs; simpl;
      repeat case_bool_decide; simpl; try done.
  - rewrite (bool_decide_eq_false_2 (inr t = inr StreamTypeControl))
      by congruence.
    apply N.eqb_neq in Hne. rewrite Hne. simpl.
    repeat (case_match; simpl; try done).
Qed.

(** On a connection the control-stream reader is started at most once, so
    [peerSettingsDone] is closed at most once. *)
Lemma control_reader_started_at_most_once (sess : session)
  (us : list uniStream) (c : connection) :
  length (peerStreams c) = 4 →
  control_starts (snd (serveUni sess c us))
  ≤ (if bool_decide (slot c StreamTypeControl = None) then 1 else 0).
Proof.
  revert c. induction us as [|u us IH]; intros c Hlen.
  - simpl. unfold control_starts. simpl. lia.
  - rewrite serveUni_cons; cbn [snd]. unfold control_starts in *.
    rewrite List.filter_app, length_app.
    pose proof (handleUni_starts sess c u) as Hs. unfold control_starts in Hs.
    rewrite Hs.
    specialize (IH (fst (handleUni sess c u))).
    rewrite handleUni_length in IH. specialize (IH Hlen).
    pose proof (handleUni_slot sess c u StreamTypeControl Hlen eq_refl) as Hslot.
    destruct (slot c StreamTypeControl) as [s|] eqn:Hc.
    + rewrite (bool_decide_eq_false_2 (Some s = None)) in * by done.
      rewrite andb_false_r.
      rewrite bool_decide_eq_false_2 in IH; [simpl in *; lia|].
      intros Hn. destruct Hslot as [_ Hslot].
      rewrite Hn in Hslot. destruct Hslot as [? [=]]. left; eauto.
    + rewrite (bool_decide_eq_true_2 (None = None)) by done.
      rewrite andb_true_r. case_bool_decide as Hu; simpl.
      * rewrite bool_decide_eq_false_2 in IH; [simpl in *; lia|].
        intros Hn. destruct Hslot as [_ Hslot].
        rewrite Hn in Hslot. destruct Hslot as [? [=]]. by right.
      * destruct (bool_decide _); simpl in *; lia.
Qed.

(** A stream tagged CONTROL, QPACK_ENCODER or QPACK_DECODER closes the
    connection with STREAM_CREATION_ERROR exactly when its slot is taken. *)
Lemma handleUni_duplicate (sess : session) (c : connection) (u : uniStream) (t : N) :
  t = StreamTypeControl ∨ t = StreamTypeQPACKEncoder ∨ t = StreamTypeQPACKDecoder →
  utype u = inr t →
  closes_with errorStreamCreationError (snd (handleUni sess c u))
  ↔ is_Some (slot c t).
Proof.
  intros Ht Hu. unfold handleIncomingUniStream, closes_with. rewrite Hu.
  destruct Ht as [-> | [-> | ->]]; simpl;
    (case_bool_decide as Hs; simpl;
     [ split; [done | intros _; eexists; apply elem_of_cons; by left]
     | split; [intros [why Hin]; list_mem | done] ]).
Qed.

(** C5: among the unidirectional streams the peer opens on a new
    connection, a stream tagged CONTROL, QPACK_ENCODER or QPACK_DECODER
    closes the connection with STREAM_CREATION_ERROR (0x103) when an
    earlier stream carried the same tag, and only then: the first stream of
    each of these types never does. *)
Theorem duplicate_critical_stream_closes (sess : session) (s : gmap N N)
  (pre : list uniStream) (u : uniStream) (t : N) :
  t = StreamTypeControl ∨ t = StreamTypeQPACKEncoder ∨ t = StreamTypeQPACKDecoder →
  utype u = inr t →
  closes_with 0x103%N
    (snd (handleUni sess (fst (serveUni sess (newConn s) pre)) u))
  ↔ ∃ p, p ∈ pre ∧ utype p = inr t.
Proof.
  intros Ht Hu.
  assert (t < 4)%N as Hlt.
  { destruct Ht as [-> | [-> | ->]]; by vm_compute. }
  destruct (serveUni_slot sess pre (newConn s) t) as [_ Hs]; [done | done |].
  change 0x103%N with errorStreamCreationError.
  rewrite (handleUni_duplicate _ _ _ t) by done.
  rewrite Hs. split; [|by right].
  intros [Hnew|?]; [|done].
  exfalso. revert Hnew. unfold slot, newConn; simpl.
  destruct Ht as [-> | [-> | ->]]; simpl; intros [x Hx]; discriminate.
Qed.

End UniStreams.

Lemma duplicate_critical_stream_closes_witness :
  closes_with 0x103%N
    (snd (handleIncomingUniStream webTransportSetting
            (mkSession PerspectiveClient false)
            (fst (serveUniStreams webTransportSetting
                    (mkSession PerspectiveClient false) (newConn ∅)
                    [mkUni 3%N (inr StreamTypeControl) (inl endOfVarint)]))
            (mkUni 7%N (inr StreamTypeControl) (inl endOfVarint)))).
Proof.
  apply (duplicate_critical_stream_closes webTransportSetting
           (mkSession PerspectiveClient false) ∅
           [mkUni 3%N (inr StreamTypeControl) (inl endOfVarint)]
           (mkUni 7%N (inr StreamTypeControl) (inl endOfVarint))
           StreamTypeControl).
  - by left.
  - reflexivity.
  - eexists. split; [apply elem_of_cons; left; reflexivity | reflexivity].
Defined.

(** ** WebTransport streams *)

Section WebTransportStreams.
Variable WebTransportEnabled : gmap N N → bool.

Local Abbreviation handleUni := (handleIncomingUniStream WebTransportEnabled).
Local Abbreviation handleBidi := (handleIncomingStream WebTransportEnabled).

Lemma incomingStreamsChan_spec (c c1 : connection) (sid : N) (ch : list Stream) :
  incomingStreamsChan c sid = (c1, ch) →
  ch = default [] (incomingStreams c !! sid)
  ∧ incomingStreams c1 = <[sid := ch]> (incomingStreams c)
  ∧ incomingUniStreams c1 = incomingUniStreams c.
Proof.
  unfold incomingStreamsChan.
  destruct (incomingStreams c !! sid) as [ch0|] eqn:Hl; intros [= <- <-]; simpl.
  - by rewrite insert_id.
  - done.
Qed.

(** Frames of other types before the first HEADERS, WEBTRANSPORT_STREAM or
    DATA frame are passed over. *)
Lemma handleBidi_skip (c : connection) (str : Stream)
  (grease rest : list nextResult) :
  Forall skipped grease →
  handleBidi c str (grease ++ rest) = handleBidi c str rest.
Proof.
  induction 1 as [|f grease Hf _ IH]; [done|].
  destruct f as [e|ty n]; [done|]. destruct Hf as (Hh & Hw & Hd).
  simpl. apply N.eqb_neq in Hh, Hw, Hd. by rewrite Hh, Hw, Hd.
Qed.

(** The WEBTRANSPORT_STREAM case of [handleIncomingStream]. *)
Lemma handleBidi_webtransport (c : connection) (str : Stream) (sid : N)
  (rest : list nextResult) :
  WebTransportEnabled (settings c) = true →
  let ch := default [] (incomingStreams c !! sid) in
  let idError :=
    if isClientBidi sid then []
    else [CancelRead str errorIDError; CancelWrite str errorIDError] in
  let r := handleBidi c str (NextFrame FrameTypeWebTransportStream sid :: rest) in
  incomingUniStreams (fst r) = incomingUniStreams c
  ∧ if has_room ch then
      incomingStreams (fst r) = <[sid := ch ++ [str]]> (incomingStreams c)
      ∧ snd r = idError
    else
      incomingStreams (fst r) = <[sid := ch]> (incomingStreams c)
      ∧ snd r = idError ++
          [CancelRead str errorWebTransportBufferedStreamRejected;
           CancelWrite str errorWebTransportBufferedStreamRejected].
Proof.
  intros He. simpl. rewrite He. simpl.
  destruct (incomingStreamsChan c sid) as [c1 ch] eqn:Hc.
  apply incomingStreamsChan_spec in Hc as (-> & Hm & Hu).
  destruct (has_room _); simpl; (split; [done|]); rewrite Hm.
  - split; [by rewrite insert_insert_eq | by destruct (isClientBidi sid)].
  - split; [done | by destruct (isClientBidi sid)].
Qed.

(** C1 at the failing input: on a bidirectional stream whose
    WEBTRANSPORT_STREAM frame carries a session id that is not a
    client-initiated bidirectional stream id, the stream is reset with
    ID_ERROR (0x108) and, the channel having room, is then put into the
    incoming-stream channel of that id all the same. *)
Theorem invalid_session_id_still_delivered (c : connection) (str : Stream)
  (sid : N) (grease rest : list nextResult) :
  Forall skipped grease →
  WebTransportEnabled (settings c) = true →
  isClientBidi sid = false →
  has_room (default [] (incomingStreams c !! sid)) = true →
  let r := handleBidi c str
             (grease ++ NextFrame FrameTypeWebTransportStream sid :: rest) in
  snd r = [CancelRead str 0x108%N; CancelWrite str 0x108%N]
  ∧ incomingStreams (fst r) !! sid
    = Some (default [] (incomingStreams c !! sid) ++ [str]).
Proof.
  intros Hg He Hid Hroom r. subst r. rewrite handleBidi_skip by done.
  destruct (handleBidi_webtransport c str sid rest He) as [_ H].
  rewrite Hroom, Hid in H. destruct H as [-> ->].
  split; [done | by rewrite lookup_insert_eq].
Qed.

(** On a bidirectional stream a valid session id routes the stream to the
    channel of that id and to no other; nothing is reset while the channel
    has room. *)
Lemma bidi_valid_session_id_routed (c : connection) (str : Stream)
  (sid : N) (grease rest : list nextResult) :
  Forall skipped grease →
  WebTransportEnabled (settings c) = true →
  isClientBidi sid = true →
  let r := handleBidi c str
             (grease ++ NextFrame FrameTypeWebTransportStream sid :: rest) in
  (∀ j, j ≠ sid → incomingStreams (fst r) !! j = incomingStreams c !! j)
  ∧ incomingUniStreams (fst r) = incomingUniStreams c
  ∧ (has_room (default [] (incomingStreams c !! sid)) = true →
     snd r = [] ∧
     incomingStreams (fst r) !! sid
     = Some (default [] (incomingStreams c !! sid) ++ [str])).
Proof.
  intros Hg He Hid r. subst r. rewrite handleBidi_skip by done.
  destruct (handleBidi_webtransport c str sid rest He) as [Hu H].
  rewrite Hid in H. split; [|split; [done|]].
  - intros j Hj. destruct (has_room _); destruct H as [-> _];
      by rewrite lookup_insert_ne.
  - intros Hroom. rewrite Hroom in H. destruct H as [-> ->].
    by rewrite lookup_insert_eq.
Qed.

(** On a unidirectional WebTransport stream an invalid session id resets
    the stream with ID_ERROR and leaves the connection as it was. *)
Lemma uni_invalid_session_id_rejected (sess : session) (c : connection)
  (u : uniStream) (sid : N) :
  WebTransportEnabled (settings c) = true →
  utype u = inr StreamTypeWebTransportStream →
  usession u = inr sid →
  isClientBidi sid = false →
  handleUni sess c u = (c, [CancelRead (ustr u) 0x108%N]).
Proof.
  intros He Ht Hs Hid. unfold handleIncomingUniStream.
  rewrite Ht, Hs. simpl. by rewrite He, Hid.
Qed.

(** On a unidirectional WebTransport stream a valid session id routes the
    stream to the channel of that id and to no other. *)
Lemma uni_valid_session_id_routed (sess : session) (c : connection)
  (u : uniStream) (sid : N) :
  WebTransportEnabled (settings c) = true →
  utype u = inr StreamTypeWebTransportStream →
  usession u = inr sid →
  isClientBidi sid = true →
  let r := handleUni sess c u in
  (∀ j, j ≠ sid → incomingUniStreams (fst r) !! j = incomingUniStreams c !! j)
  ∧ incomingStreams (fst r) = incomingStreams c
  ∧ (has_room (default [] (incomingUniStreams c !! sid)) = true →
     snd r = [] ∧
     incomingUniStreams (fst r) !! sid
     = Some (default [] (incomingUniStreams c !! sid) ++ [ustr u])).
Proof.
  intros He Ht Hs Hid r. subst r. unfold handleIncomingUniStream.
  rewrite Ht, Hs. simpl. rewrite He, Hid. simpl.
  destruct (incomingUniStreamsChan c sid) as [c1 ch] eqn:Hc.
  apply incomingUniStreamsChan_spec in Hc as (-> & Hm & Hb & _).
  destruct (has_room _) eqn:Hroom; simpl; rewrite Hm.
  - split; [|split; [done|]].
    + intros j Hj. by rewrite !lookup_insert_ne.
    + intros _. split; [done | by rewrite lookup_insert_eq].
  - split; [|split; [done | done]].
    intros j Hj. by rewrite lookup_insert_ne.
Qed.

End WebTransportStreams.

Lemma invalid_session_id_still_delivered_witness :
  let r := handleIncomingStream webTransportSetting
             (newConn {[ 0x2b603742%N := 1%N ]}) 8%N
             [NextFrame FrameTypeWebTransportStream 1%N] in
  snd r = [CancelRead 8%N 0x108%N; CancelWrite 8%N 0x108%N]
  ∧ incomingStreams (fst r) !! 1%N = Some [8%N].
Proof.
  apply (invalid_session_id_still_delivered webTransportSetting
           (newConn {[ 0x2b603742%N := 1%N ]}) 8%N 1%N [] []);
    [constructor | reflexivity | reflexivity | reflexivity].
Defined.

End ConnFacts.

(* ===================================================================== *)
(** * Properties: the client *)
(* ===================================================================== *)

Module ClientFacts.
Import Errors Client.

Ltac event_mem :=
  cbn [fst snd] in *;
  unfold errorMessageError, errorGeneralProtocolError, errorFrameError,
    errorFrameUnexpected in *;
  repeat match goal with H : _ ∈ _ |- _ => revert H end;
  rewrite ?elem_of_app, ?elem_of_cons, ?elem_of_nil;
  intuition (congruence || eauto).

(** ** The response loop *)

Lemma reaches_readResponse reads h reads' h' :
  reaches reads h reads' h' → readResponse reads h = readResponse reads' h'.
Proof.
  induction 1 as [|headers rest h sc st h1 reads' h' Hscan Hsc _ IH]; [done|].
  simpl. rewrite Hscan.
  replace ((sc <? 100)%Z || (200 <=? sc)%Z) with false; [done|].
  symmetry. apply orb_false_iff. split; [apply Z.ltb_ge | apply Z.leb_gt]; lia.
Qed.

(** The loop resets the stream at most once, and only with MESSAGE_ERROR. *)
Lemma readResponse_events reads h :
  snd (readResponse reads h) = []
  ∨ (snd (readResponse reads h) = [CancelWrite errorMessageError]
     ∧ fst (readResponse reads h) = inl invalidStatus).
Proof.
  revert h. induction reads as [|[e|headers] rest IH]; intros h; simpl; auto.
  destruct (scanHeaders headers 0 "" h) as [[[sc st] h']|]; [|auto].
  destruct ((sc <? 100)%Z || (200 <=? sc)%Z); auto.
Qed.

(** A frame is rejected exactly when one of its [:status] values is
    rejected by [strconv.Atoi]. *)
Lemma scanHeaders_None headers sc st h :
  scanHeaders headers sc st h = None
  ↔ ∃ hf, hf ∈ headers ∧ Name hf = pseudoHeaderStatus
          ∧ Strconv.Atoi (Value hf) = None.
Proof.
  revert sc st h. induction headers as [|hf rest IH]; intros sc st h; simpl.
  - split; [done | intros (hf & Hin & _); by apply elem_of_nil in Hin].
  - destruct (String.eqb_spec (Name hf) pseudoHeaderStatus) as [Hn|Hn].
    + destruct (Strconv.Atoi (Value hf)) as [n|] eqn:Ha.
      * rewrite IH. split; intros (hf' & Hin & Hn' & Ha').
        -- exists hf'. split; [apply elem_of_cons; by right | done].
        -- apply elem_of_cons in Hin as [->|Hin]; [congruence|]. by exists hf'.
      * split; [intros _ | done]. exists hf.
        split; [apply elem_of_cons; by left | done].
    + rewrite IH. split; intros (hf' & Hin & Hn' & Ha').
      * exists hf'. split; [apply elem_of_cons; by right | done].
      * apply elem_of_cons in Hin as [->|Hin]; [congruence|]. by exists hf'.
Qed.

(** The status of a frame is the value of one of its [:status] fields as
    [strconv.Atoi] reads it, or the initial one. *)
Lemma scanHeaders_status headers sc0 st0 h sc st h' :
  scanHeaders headers sc0 st0 h = Some (sc, st, h') →
  sc = sc0 ∨ ∃ hf, hf ∈ headers ∧ Name hf = pseudoHeaderStatus
                   ∧ Strconv.Atoi (Value hf) = Some sc.
Proof.
  revert sc0 st0 h. induction headers as [|hf rest IH]; intros sc0 st0 h; simpl.
  - intros [= -> _ _]. by left.
  - destruct (String.eqb_spec (Name hf) pseudoHeaderStatus) as [Hn|Hn].
    + destruct (Strconv.Atoi (Value hf)) as [n|] eqn:Ha; [|done].
      intros Hs. right. apply IH in Hs as [->|(hf' & Hin & Hn' & Ha')].
      * exists hf. split; [apply elem_of_cons; by left | done].
      * exists hf'. split; [apply elem_of_cons; by right | done].
    + intros Hs. apply IH in Hs as [->|(hf' & Hin & Hn' & Ha')]; [by left|].
      right. exists hf'. split; [apply elem_of_cons; by right | done].
Qed.

Lemma RoundTrip_calls dc x req :
  callsDoRequest x req = true →
  RoundTrip dc x req =
    let d := doRequest dc (sentRequest req) (writeErr x) (reads x) in
    match fst d with
    | inl err => (inl err, [GoCancelObserver] ++ snd d ++ [CloseReqDone; onError err])
    | inr r => (inr r, [GoCancelObserver] ++ snd d)
    end.
Proof.
  unfold callsDoRequest, RoundTrip. intros H.
  apply andb_true_iff in H as [H Ho]. apply andb_true_iff in H as [H Hc].
  apply andb_true_iff in H as [Ha Hh].
  apply bool_decide_eq_true in Ho, Hh. rewrite Ha, Hh, Ho. simpl.
  apply negb_true_iff in Hc. rewrite Hc.
  by destruct (doRequest _ _ _ _) as [[err|r] evs].
Qed.

Lemma doRequest_events dc req werr reads :
  ∀ e, e ∈ snd (doRequest dc req werr reads) → classified e = false.
Proof.
  intros e. unfold doRequest. destruct werr as [e0|]; simpl.
  - intros He. apply list_elem_of_singleton in He. by subst.
  - pose proof (readResponse_events reads ∅) as Hev.
    destruct (readResponse reads ∅) as [[err|[[sc st] h]] evs]; simpl in Hev.
    + simpl. destruct Hev as [->|[-> _]]; intros He; event_mem; by subst.
    + destruct Hev as [->|[_ ?]]; [|done].
      destruct (_ && _); simpl; intros He; event_mem; by subst.
Qed.

Lemma filter_none {A} (f : A → bool) (l : list A) :
  (∀ a, a ∈ l → f a = false) → List.filter f l = [].
Proof.
  induction l as [|a l IH]; intros H; [done|]. simpl.
  rewrite (H a) by (apply elem_of_cons; by left).
  apply IH. intros b Hb. apply H, elem_of_cons. by right.
Qed.

Lemma classified_onError err : classified (onError err) = true.
Proof. by destruct err. Qed.

(** C7: when [doRequest] returns an error to [RoundTrip], [RoundTrip]
    returns that error, closes [reqDone], and then takes one action chosen
    by the type of the error: a [FrameTypeError] closes the connection with
    FRAME_UNEXPECTED (0x105), a [FrameLengthError] resets the request
    stream with FRAME_ERROR (0x106), any other error resets it with
    GENERAL_PROTOCOL_ERROR (0x101); of these three actions the whole round
    trip takes exactly one. *)
Theorem roundtrip_error_classification (dc : bool) (x : exchange)
  (req : Request) (err : error) :
  callsDoRequest x req = true →
  fst (doRequest dc (sentRequest req) (writeErr x) (reads x)) = inl err →
  let r := RoundTrip dc x req in
  let action :=
    match err with
    | FrameTypeError _ _ => SessCloseWithError 0x105%N err
    | FrameLengthError _ _ _ => CancelWrite 0x106%N
    | _ => CancelWrite 0x101%N
    end in
  fst r = inl err
  ∧ snd r = [GoCancelObserver]
            ++ snd (doRequest dc (sentRequest req) (writeErr x) (reads x))
            ++ [CloseReqDone; action]
  ∧ List.filter classified (snd r) = [action].
Proof.
  intros Hc Hd r action. subst r.
  rewrite RoundTrip_calls by done. cbv zeta. rewrite Hd. cbn [fst snd].
  assert (action = onError err) as -> by (subst action; by destruct err).
  split; [done|]. split; [done|].
  rewrite !List.filter_app. cbn [List.filter classified].
  rewrite (filter_none _ _ (doRequest_events dc _ _ _)).
  by rewrite classified_onError.
Qed.

Lemma roundtrip_error_classification_witness :
  List.filter classified
    (snd (RoundTrip false
            (mkExchange true None false None None
               [inl (FrameLengthError 1 16777217 16777216)])
            (mkRequest "GET" ∅)))
  = [CancelWrite 0x106%N].
Proof.
  apply (roundtrip_error_classification false
           (mkExchange true None false None None
              [inl (FrameLengthError 1 16777217 16777216)])
           (mkRequest "GET" ∅) (FrameLengthError 1 16777217 16777216));
    reflexivity.
Defined.

(** ** The response status *)

(** C2, as stated, fails: status values below 100 and above 999 are read by
    [strconv.Atoi] without error and become the status of the response
    that [RoundTrip] returns; the stream is not reset. *)
Lemma out_of_range_status_accepted :
  let run v :=
    RoundTrip false
      (mkExchange true None false None None [inr [mkField ":status" v]])
      (mkRequest "GET" ∅) in
  (∃ res, fst (run "42") = inr res ∧ StatusCode res = 42%Z)
  ∧ (CancelWrite 0x10e%N ∉ snd (run "42"))
  ∧ (∃ res, fst (run "1000") = inr res ∧ StatusCode res = 1000%Z)
  ∧ (CancelWrite 0x10e%N ∉ snd (run "1000")).
Proof.
  cbv zeta. split; [|split; [|split]].
  - eexists. split; by vm_compute.
  - intros H. apply list_elem_of_In in H. vm_compute in H.
    intuition discriminate.
  - eexists. split; by vm_compute.
  - intros H. apply list_elem_of_In in H. vm_compute in H.
    intuition discriminate.
Qed.

(** C2, amended: for every HEADERS frame the response loop reads, a
    [:status] value that [strconv.Atoi] rejects (empty, not an optionally
    signed decimal number, or outside the range of [int]) resets the
    request stream with MESSAGE_ERROR (0x10e) and makes [RoundTrip] return
    an error. A value that is read is not checked against a range: when
    the frame is not rejected and its status is below 100 or at least 200,
    that status is the status of the response returned, and the stream is
    not reset with MESSAGE_ERROR. *)
Theorem status_header_handling (dc : bool) (x : exchange) (req : Request)
  (headers : list HeaderField) (rest : list headersRead)
  (h : gmap string (list string)) :
  callsDoRequest x req = true →
  writeErr x = None →
  reaches (reads x) ∅ (inr headers :: rest) h →
  let r := RoundTrip dc x req in
  ((∃ hf, hf ∈ headers ∧ Name hf = pseudoHeaderStatus
          ∧ Strconv.Atoi (Value hf) = None) →
   fst r = inl invalidStatus
   ∧ snd r = [GoCancelObserver; WriteRequest (requestGzip_of dc (sentRequest req));
              CancelWrite 0x10e%N; CloseReqDone; CancelWrite 0x101%N])
  ∧ (∀ sc st h', scanHeaders headers 0 "" h = Some (sc, st, h') →
     (sc < 100 ∨ 200 ≤ sc)%Z →
     (∃ res, fst r = inr res ∧ StatusCode res = sc)
     ∧ (CancelWrite 0x10e%N ∉ snd r)
     ∧ (sc = 0%Z ∨ ∃ hf, hf ∈ headers ∧ Name hf = pseudoHeaderStatus
                         ∧ Strconv.Atoi (Value hf) = Some sc)).
Proof.
  intros Hc Hw Hr r. subst r. rewrite RoundTrip_calls by done. cbv zeta.
  unfold doRequest. rewrite Hw, (reaches_readResponse _ _ _ _ Hr).
  cbn [readResponse]. split.
  - intros Hbad. apply (scanHeaders_None headers 0%Z "" h) in Hbad.
    by rewrite Hbad.
  - intros sc st h' Hscan Hsc. rewrite Hscan.
    replace ((sc <? 100)%Z || (200 <=? sc)%Z) with true.
    2:{ symmetry. apply orb_true_iff.
        destruct Hsc; [left; by apply Z.ltb_lt | right; by apply Z.leb_le]. }
    split; [|split].
    + destruct (_ && _); simpl; eexists; split; done.
    + destruct (_ && _); simpl; intros H; event_mem.
    + by apply scanHeaders_status in Hscan.
Qed.

Lemma status_header_handling_witness :
  let r := RoundTrip false
             (mkExchange true None false None None
                [inr [mkField ":status" "101"]; inr [mkField ":status" ""]])
             (mkRequest "GET" ∅) in
  fst r = inl invalidStatus
  ∧ snd r = [GoCancelObserver; WriteRequest true;
             CancelWrite 0x10e%N; CloseReqDone; CancelWrite 0x101%N].
Proof.
  refine (proj1 (status_header_handling false
           (mkExchange true None false None None
              [inr [mkField ":status" "101"]; inr [mkField ":status" ""]])
           (mkRequest "GET" ∅) [mkField ":status" ""] [] ∅
           eq_refl eq_refl _) _).
  - apply (reaches_interim _ _ _ 101%Z "101 " ∅);
      [by vm_compute | lia | apply reaches_here].
  - exists (mkField ":status" ""). split; [by apply list_elem_of_singleton | done].
Defined.

(** ** The content length *)

(** The block of [doRequest] computes what the specification describes. *)
Lemma contentLength_spec h sc method :
  contentLength h sc method = specContentLength h sc method.
Proof.
  unfold contentLength, specContentLength.
  destruct (bool_decide (is_Some (h !! "Transfer-Encoding"))); [done|]. simpl.
  case_bool_decide as Hi.
  { replace ((100 <=? sc)%Z && (sc <? 200)%Z) with true; [done|].
    symmetry. apply andb_true_iff. split; [apply Z.leb_le | apply Z.ltb_lt]; lia. }
  replace ((100 <=? sc)%Z && (sc <? 200)%Z) with false.
  2:{ symmetry. apply andb_false_iff.
      destruct (Z.leb_spec 100 sc); [right; apply Z.ltb_ge; lia | by left]. }
  simpl. case_bool_decide as Hn.
  { subst sc. done. }
  replace (sc =? 204)%Z with false by (symmetry; by apply Z.eqb_neq).
  simpl. case_bool_decide as Hcn.
  { destruct Hcn as [-> Hcn]. simpl.
    replace ((200 <=? sc)%Z && (sc <? 300)%Z) with true; [done|].
    symmetry. apply andb_true_iff. split; [apply Z.leb_le | apply Z.ltb_lt]; lia. }
  replace (String.eqb method MethodConnect && (200 <=? sc)%Z && (sc <? 300)%Z)
    with false.
  2:{ symmetry. destruct (String.eqb_spec method MethodConnect) as [->|]; [|done].
      simpl. apply andb_false_iff.
      destruct (Z.leb_spec 200 sc); [right; apply Z.ltb_ge | by left].
      destruct (Z.le_gt_cases 300 sc); [done|]. exfalso. apply Hcn. split; [done|lia]. }
  simpl. by destruct (h !! "Content-Length") as [[|v [|]]|].
Qed.

(** C8, as stated, fails: a response with a Transfer-Encoding header that
    is decompressed on the fly has [ContentLength] -1 and not the unset
    field. *)
Lemma gzip_response_content_length :
  let r := RoundTrip false
             (mkExchange true None false None None
                [inr [mkField ":status" "200";
                      mkField "transfer-encoding" "chunked";
                      mkField "content-encoding" "gzip"]])
             (mkRequest "GET" ∅) in
  ∃ res, fst r = inr res
         ∧ Header res !! "Transfer-Encoding" = Some ["chunked"]
         ∧ specContentLength (Header res) (StatusCode res) "GET" = 0%Z
         ∧ ContentLength res = (-1)%Z.
Proof. cbv zeta. eexists. repeat split; by vm_compute. Qed.

(** C8, amended: the response that [doRequest] returns is decompressed on
    the fly exactly when gzip was asked for and the headers received say
    [Content-Encoding: gzip]; then [ContentLength] is -1. Otherwise it is
    as the specification says: unset with a Transfer-Encoding header, an
    informational status, status 204 or a 2xx answer to CONNECT; else the
    value of the one Content-Length header when it reads as a signed 64-bit
    number, and -1 when that header is absent, repeated or unreadable. *)
Theorem content_length_of_response (dc : bool) (req : Request)
  (werr : option error) (reads : list headersRead) (res : Response)
  (evs : list event) :
  doRequest dc req werr reads = (inr res, evs) →
  (∃ sc st h evs', readResponse reads ∅ = (inr (sc, st, h), evs')
     ∧ Uncompressed res =
       requestGzip_of dc req && String.eqb (Header.Get h "Content-Encoding") "gzip")
  ∧ ContentLength res =
    if Uncompressed res then (-1)%Z
    else specContentLength (Header res) (StatusCode res) (Method req).
Proof.
  unfold doRequest. destruct werr as [e|]; [done|].
  destruct (readResponse reads ∅) as [[e|[[sc st] h]] evs'] eqn:Hr; [done|].
  destruct (requestGzip_of dc req && String.eqb (Header.Get h "Content-Encoding") "gzip")
    eqn:Hg; intros [= <- <-]; simpl.
  - split; [|done]. by exists sc, st, h, evs'.
  - split; [by exists sc, st, h, evs' | apply contentLength_spec].
Qed.

Lemma content_length_of_response_witness :
  ∃ res, fst (doRequest false (mkRequest "GET" ∅) None
                [inr [mkField ":status" "200"; mkField "content-length" "10"]])
         = inr res
         ∧ ContentLength res = 10%Z.
Proof.
  eexists. split; [reflexivity|].
  refine (eq_trans (proj2 (content_length_of_response false (mkRequest "GET" ∅) None
            [inr [mkField ":status" "200"; mkField "content-length" "10"]]
            _ _ eq_refl)) _).
  by vm_compute.
Defined.

End ClientFacts.

(* ===================================================================== *)
(** * Further properties: the response body *)
(* ===================================================================== *)

Module BodyUseFacts.
Import Errors Body BodyUse.

Lemma occurrences_app (e : event) (a b : list event) :
  occurrences e (a ++ b) = occurrences e a + occurrences e b.
Proof. unfold occurrences. by rewrite List.filter_app, length_app. Qed.

(** What one call does to the flags and how often it closes the channel and
    reads trailers. *)
Lemma step_summary (r : body) (c : call) :
  reqDone (fst (step r c)) = reqDone r
  ∧ onTrailers (fst (step r c)) = onTrailers r
  ∧ reqDoneClosed (fst (step r c)) = reqDoneClosed r || (reqDone r && finishes c)
  ∧ closes (snd (step r c))
    = (if reqDone r && negb (reqDoneClosed r) && finishes c then 1 else 0)
  ∧ occurrences OnTrailers (snd (step r c))
    = (if onTrailers r && eof_read c then 1 else 0)
  ∧ occurrences ReadHeaders (snd (step r c))
    = occurrences OnTrailers (snd (step r c)).
Proof.
  destruct r as [[] [] []], c as [n [| |e]|]; repeat split; reflexivity.
Qed.

(** The channel [reqDone] of a response body is closed once the user is
    done, that is by the first [Close] or failing [Read], and only then: a
    run of calls closes it once if the channel is there, was not closed
    before, and some call finishes; otherwise not at all. A request body
    has no channel and closes nothing. *)
Theorem reqDone_closed_exactly_when_done (r : body) (cs : list call) :
  closes (snd (run r cs))
  = if reqDone r && negb (reqDoneClosed r) && existsb finishes cs then 1 else 0.
Proof.
  revert r. induction cs as [|c cs IH]; intros r.
  - simpl. by rewrite andb_false_r.
  - rewrite BodyFacts.run_cons; cbn [snd existsb].
    rewrite BodyFacts.closes_app, IH.
    destruct (step_summary r c) as (-> & _ & -> & -> & _).
    destruct (reqDone r), (reqDoneClosed r), (finishes c), (existsb finishes cs);
      reflexivity.
Qed.

(** Trailers are read, and the callback called, on every [Read] that
    returns [io.EOF], not only the first one, and on no other call; a body
    without a callback never reads them. *)
Theorem trailers_read_on_every_eof (r : body) (cs : list call) :
  occurrences OnTrailers (snd (run r cs))
  = (if onTrailers r then length (List.filter eof_read cs) else 0)
  ∧ occurrences ReadHeaders (snd (run r cs))
    = occurrences OnTrailers (snd (run r cs)).
Proof.
  revert r. induction cs as [|c cs IH]; intros r.
  - simpl. by destruct (onTrailers r).
  - rewrite BodyFacts.run_cons; cbn [snd List.filter].
    rewrite !occurrences_app.
    destruct (IH (fst (step r c))) as [IH1 IH2]. rewrite IH2, IH1.
    destruct (step_summary r c) as (_ & -> & _ & _ & -> & ->).
    split; [|done].
    destruct (onTrailers r), (eof_read c); simpl; lia.
Qed.

End BodyUseFacts.

(* ===================================================================== *)
(** * Further properties: the stream handlers *)
(* ===================================================================== *)

Module StreamFacts.
Import Errors Conn Demux.

Ltac list_mem := ConnFacts.list_mem.

Lemma bounded_insert {A : Type} (n : nat) (m : gmap N (list A)) (k : N)
  (ch : list A) :
  bounded n m → length ch ≤ n → bounded n (<[k := ch]> m).
Proof.
  intros Hm Hch j ch' Hj. destruct (decide (k = j)) as [->|Hne].
  - rewrite lookup_insert_eq in Hj. by injection Hj as <-.
  - rewrite lookup_insert_ne in Hj by done. by eapply Hm.
Qed.

Lemma bounded_default {A : Type} (n : nat) (m : gmap N (list A)) (k : N) :
  bounded n m → length (default [] (m !! k)) ≤ n.
Proof.
  intros Hm. destruct (m !! k) as [ch|] eqn:Hk; simpl; [by eapply Hm | lia].
Qed.

Lemma has_room_spec (ch : list Stream) :
  has_room ch = true ↔ length ch < maxBufferedStreams.
Proof. unfold has_room. apply Nat.ltb_lt. Qed.

Section Bidi.
Variable WebTransportEnabled : gmap N N → bool.

Local Abbreviation handleBidi := (handleIncomingStream WebTransportEnabled).

(** The connection after [handleIncomingStream]: as before, or with one
    channel of the table of bidirectional streams made or extended. *)
Lemma handleBidi_connection (c : connection) (str : Stream)
  (frames : list nextResult) :
  fst (handleBidi c str frames) = c
  ∨ (WebTransportEnabled (settings c) = true
     ∧ same_but_streams c (fst (handleBidi c str frames))
     ∧ ∃ sid, let ch := default [] (incomingStreams c !! sid) in
         incomingStreams (fst (handleBidi c str frames))
         = <[sid := if has_room ch then ch ++ [str] else ch]> (incomingStreams c)).
Proof.
  induction frames as [|[e|ty n] rest IH]; simpl; [by left | by left |].
  destruct (ty =? FrameTypeHeaders)%N; [by left|].
  destruct (ty =? FrameTypeWebTransportStream)%N.
  - destruct (WebTransportEnabled (settings c)) eqn:He; simpl; [|by left].
    right. split; [done|].
    destruct (incomingStreamsChan c n) as [c1 ch] eqn:Hc.
    assert (same_but_streams c c1) as Hs.
    { unfold incomingStreamsChan in Hc.
      destruct (incomingStreams c !! n); injection Hc as <- _; by repeat split. }
    apply ConnFacts.incomingStreamsChan_spec in Hc as (-> & Hm & Hu).
    destruct (has_room _) eqn:Hr; simpl.
    + split; [by destruct Hs as (?&?&?&?&?&?) |].
      exists n. simpl. by rewrite Hr, Hm, insert_insert_eq.
    + split; [done|]. exists n. simpl. by rewrite Hr.
  - destruct (ty =? FrameTypeData)%N; [by left | apply IH].
Qed.

(** [handleIncomingStream] touches nothing but the table of incoming
    bidirectional streams, and not even that while WebTransport is not
    enabled in the local settings. *)
Theorem bidi_handler_changes_only_its_table (c : connection) (str : Stream)
  (frames : list nextResult) :
  same_but_streams c (fst (handleBidi c str frames))
  ∧ (WebTransportEnabled (settings c) = false → fst (handleBidi c str frames) = c).
Proof.
  destruct (handleBidi_connection c str frames) as [->|(He & Hs & _)].
  - by repeat split.
  - split; [done | congruence].
Qed.

(** The channels of incoming bidirectional streams stay within their
    capacity of 10 under [handleIncomingStream]. *)
Theorem bidi_channels_stay_bounded (c : connection) (str : Stream)
  (frames : list nextResult) :
  bounded maxBufferedStreams (incomingStreams c) →
  bounded maxBufferedStreams (incomingStreams (fst (handleBidi c str frames))).
Proof.
  intros Hb.
  destruct (handleBidi_connection c str frames) as [->|(_ & _ & sid & ->)]; [done|].
  apply bounded_insert; [done|].
  destruct (has_room _) eqn:Hr.
  - apply has_room_spec in Hr. rewrite length_app. simpl. lia.
  - by apply bounded_default.
Qed.

(** [handleIncomingStream] closes the connection only for a DATA frame that
    comes before any HEADERS or WEBTRANSPORT_STREAM frame, and then with
    FRAME_UNEXPECTED (0x105); it does nothing else in that case. *)
Theorem bidi_close_only_frame_unexpected (c : connection) (str : Stream)
  (frames : list nextResult) (code : N) (why : reason) :
  CloseWithError code why ∈ snd (handleBidi c str frames) →
  code = 0x105%N
  ∧ why = ErrorText (FrameTypeError FrameTypeHeaders FrameTypeData)
  ∧ handleBidi c str frames = (c, [CloseWithError code why])
  ∧ ∃ grease n rest, frames = grease ++ NextFrame FrameTypeData n :: rest
                     ∧ Forall skipped grease.
Proof.
  induction frames as [|[e|ty n] rest IH]; simpl; [list_mem | list_mem |].
  destruct (ty =? FrameTypeHeaders)%N eqn:Hh; [list_mem|].
  destruct (ty =? FrameTypeWebTransportStream)%N eqn:Hw.
  - destruct (WebTransportEnabled (settings c)); simpl; [|list_mem].
    destruct (incomingStreamsChan c n) as [c1 ch].
    destruct (has_room ch), (isClientBidi n); simpl; list_mem.
  - destruct (ty =? FrameTypeData)%N eqn:Hd.
    + apply N.eqb_eq in Hd. subst ty. intros Hin.
      apply list_elem_of_singleton in Hin. injection Hin as -> ->.
      repeat split. by exists [], n, rest.
    + intros Hin. destruct (IH Hin) as (-> & -> & Hr & grease & n' & rest' & -> & Hg).
      repeat split; [done|].
      exists (NextFrame ty n :: grease), n', rest'. split; [done|].
      constructor; [|done]. simpl.
      apply N.eqb_neq in Hh, Hw, Hd. done.
Qed.

(** A stream that ends, or fails, before a HEADERS, WEBTRANSPORT_STREAM or
    DATA frame has its send side reset with REQUEST_INCOMPLETE (0x10d); the
    connection is left as it was. *)
Theorem bidi_incomplete_stream_reset (c : connection) (str : Stream)
  (grease tail : list nextResult) :
  Forall skipped grease →
  tail = [] ∨ (∃ e rest, tail = NextErr e :: rest) →
  handleBidi c str (grease ++ tail) = (c, [CancelWrite str 0x10d%N]).
Proof.
  intros Hg Ht. rewrite ConnFacts.handleBidi_skip by done.
  by destruct Ht as [->|(e & rest & ->)].
Qed.

(** When the channel of a session already holds 10 streams, a further
    stream for that session is reset in both directions with
    WEBTRANSPORT_BUFFERED_STREAM_REJECTED (0x3994bd84) and the connection
    is left as it was. *)
Theorem bidi_full_channel_rejects (c : connection) (str : Stream) (sid : N)
  (ch : list Stream) (grease rest : list nextResult) :
  Forall skipped grease →
  WebTransportEnabled (settings c) = true →
  isClientBidi sid = true →
  incomingStreams c !! sid = Some ch →
  length ch = maxBufferedStreams →
  handleBidi c str (grease ++ NextFrame FrameTypeWebTransportStream sid :: rest)
  = (c, [CancelRead str 0x3994bd84%N; CancelWrite str 0x3994bd84%N]).
Proof.
  intros Hg He Hid Hch Hlen. rewrite ConnFacts.handleBidi_skip by done.
  simpl. rewrite He, Hid. simpl.
  unfold incomingStreamsChan. rewrite Hch.
  unfold has_room. rewrite Hlen. done.
Qed.

End Bidi.

Lemma bidi_channels_stay_bounded_witness :
  bounded maxBufferedStreams
    (incomingStreams
       (fst (handleIncomingStream webTransportSetting
               (newConn {[ 0x2b603742%N := 1%N ]}) 8%N
               [NextFrame FrameTypeWebTransportStream 4%N]))).
Proof.
  apply (bidi_channels_stay_bounded webTransportSetting
           (newConn {[ 0x2b603742%N := 1%N ]}) 8%N
           [NextFrame FrameTypeWebTransportStream 4%N]).
  intros k ch Hk. simpl in Hk. by rewrite lookup_empty in Hk.
Defined.

Lemma bidi_close_only_frame_unexpected_witness :
  handleIncomingStream webTransportSetting (newConn ∅) 8%N
    [NextFrame 0x21%N 0%N; NextFrame FrameTypeData 5%N]
  = (newConn ∅,
     [CloseWithError 0x105%N
        (ErrorText (FrameTypeError FrameTypeHeaders FrameTypeData))]).
Proof.
  refine (proj1 (proj2 (proj2
    (bidi_close_only_frame_unexpected webTransportSetting (newConn ∅) 8%N
       [NextFrame 0x21%N 0%N; NextFrame FrameTypeData 5%N] 0x105%N
       (ErrorText (FrameTypeError FrameTypeHeaders FrameTypeData)) _)))).
  apply list_elem_of_In. vm_compute. by left.
Defined.

Lemma bidi_incomplete_stream_reset_witness :
  handleIncomingStream webTransportSetting (newConn ∅) 8%N
    ([NextFrame 0x21%N 0%N] ++ [])
  = (newConn ∅, [CancelWrite 8%N 0x10d%N]).
Proof.
  apply (bidi_incomplete_stream_reset webTransportSetting (newConn ∅) 8%N
           [NextFrame 0x21%N 0%N] []).
  - constructor; [by vm_compute | constructor].
  - by left.
Defined.

Lemma bidi_full_channel_rejects_witness :
  let c := set_incomingStreams {[ 4%N := [1;2;3;4;5;6;7;8;9;10]%N ]}
             (newConn {[ 0x2b603742%N := 1%N ]}) in
  handleIncomingStream webTransportSetting c 11%N
    ([] ++ [NextFrame FrameTypeWebTransportStream 4%N])
  = (c, [CancelRead 11%N 0x3994bd84%N; CancelWrite 11%N 0x3994bd84%N]).
Proof.
  apply (bidi_full_channel_rejects webTransportSetting
           (set_incomingStreams {[ 4%N := [1;2;3;4;5;6;7;8;9;10]%N ]}
              (newConn {[ 0x2b603742%N := 1%N ]}))
           11%N 4%N [1;2;3;4;5;6;7;8;9;10]%N [] []);
    [constructor | reflexivity | reflexivity | reflexivity | reflexivity].
Defined.

Section Uni.
Variable WebTransportEnabled : gmap N N → bool.

Local Abbreviation handleUni := (handleIncomingUniStream WebTransportEnabled).

Lemma incomingUniStreamsChan_same (c c1 : connection) (sid : N) (ch : list Stream) :
  incomingUniStreamsChan c sid = (c1, ch) →
  same_but_uni c c1 ∧ peerStreams c1 = peerStreams c.
Proof.
  unfold incomingUniStreamsChan.
  destruct (incomingUniStreams c !! sid); intros [= <- _]; by repeat split.
Qed.

(** The events of [handleIncomingUniStream], read off the connection it
    starts from. *)
Lemma handleUni_events (sess : session) (c : connection) (u : uniStream) :
  snd (handleUni sess c u) =
  match utype u with
  | inl _ => [CancelRead (ustr u) errorGeneralProtocolError]
  | inr t =>
      if (t <? 4)%N && bool_decide (is_Some (slot c t)) then
        [CloseWithError errorStreamCreationError (MoreThanOne t)]
      else if (t =? StreamTypeControl)%N then [GoHandleControlStream (ustr u)]
      else if (t =? StreamTypePush)%N then
        match sessPerspective sess with
        | PerspectiveServer =>
            [CloseWithError errorStreamCreationError (SpuriousFromClient t)]
        | PerspectiveClient =>
            [CloseWithError errorIDError (Text "MAX_PUSH_ID = 0")]
        end
      else if (t =? StreamTypeQPACKEncoder)%N || (t =? StreamTypeQPACKDecoder)%N
      then []
      else if (t =? StreamTypeWebTransportStream)%N then
        if negb (WebTransportEnabled (settings c)) then
          [CancelRead (ustr u) errorSettingsError]
        else
          match usession u with
          | inl _ => [CancelRead (ustr u) errorGeneralProtocolError]
          | inr sid =>
              if negb (isClientBidi sid) then [CancelRead (ustr u) errorIDError]
              else if has_room (default [] (incomingUniStreams c !! sid)) then []
              else [CancelRead (ustr u) errorWebTransportBufferedStreamRejected]
          end
      else [CancelRead (ustr u) errorStreamCreationError]
  end.
Proof.
  unfold handleIncomingUniStream.
  destruct (utype u) as [e|t]; [done|]. cbv zeta.
  destruct (t <? 4)%N eqn:Ht; cbn [andb].
  - destruct (bool_decide (is_Some (slot c t))); [done|]. cbn [andb].
    repeat (case_match; try done).
    all: apply N.eqb_eq in H2; subst t; by vm_compute in Ht.
  - destruct (t =? StreamTypeControl)%N; [done|].
    destruct (t =? StreamTypePush)%N; [by destruct (sessPerspective sess)|].
    destruct (_ || _); [done|].
    destruct (t =? StreamTypeWebTransportStream)%N; [|done].
    destruct (negb (WebTransportEnabled (settings c))); [done|].
    destruct (usession u) as [e|sid]; [done|].
    destruct (negb (isClientBidi sid)); [done|].
    destruct (incomingUniStreamsChan c sid) as [c2 ch] eqn:Hc.
    apply ConnFacts.incomingUniStreamsChan_spec in Hc as (-> & _).
    by destruct (has_room _).
Qed.

(** The table of incoming unidirectional streams after the handler: as
    before, or with one channel made or extended. *)
Lemma handleUni_table (sess : session) (c : connection) (u : uniStream) :
  same_but_uni c (fst (handleUni sess c u))
  ∧ (incomingUniStreams (fst (handleUni sess c u)) = incomingUniStreams c
     ∨ ∃ sid, let ch := default [] (incomingUniStreams c !! sid) in
         incomingUniStreams (fst (handleUni sess c u))
         = <[sid := if has_room ch then ch ++ [ustr u] else ch]>
             (incomingUniStreams c)).
Proof.
  unfold handleIncomingUniStream.
  destruct (utype u) as [e|t]; [split; [by repeat split | by left]|]. cbv zeta.
  set (c1 := if (t <? 4)%N then _ else c).
  assert (same_but_uni c c1 ∧ incomingUniStreams c1 = incomingUniStreams c)
    as [Hs H1] by (subst c1; destruct (t <? 4)%N; by repeat split).
  clearbody c1.
  destruct (_ && _); [split; [done | by left]|].
  destruct (t =? StreamTypeControl)%N; [split; [done | by left]|].
  destruct (t =? StreamTypePush)%N;
    [destruct (sessPerspective sess); (split; [done | by left])|].
  destruct (_ || _); [split; [done | by left]|].
  destruct (t =? StreamTypeWebTransportStream)%N; [|split; [done | by left]].
  destruct (negb (WebTransportEnabled (settings c1))); [split; [done | by left]|].
  destruct (usession u) as [e|sid]; [split; [done | by left]|].
  destruct (negb (isClientBidi sid)); [split; [done | by left]|].
  destruct (incomingUniStreamsChan c1 sid) as [c2 ch] eqn:Hc.
  pose proof (incomingUniStreamsChan_same _ _ _ _ Hc) as [Hs2 _].
  apply ConnFacts.incomingUniStreamsChan_spec in Hc as (-> & Hm & _).
  assert (same_but_uni c c2) as Hs3.
  { destruct Hs as (?&?&?&?&?), Hs2 as (?&?&?&?&?). repeat split; congruence. }
  rewrite H1 in *.
  destruct (has_room _) eqn:Hr; simpl.
  - split; [done|]. right. exists sid. simpl. by rewrite Hr, Hm, insert_insert_eq.
  - split; [done|]. right. exists sid. simpl. by rewrite Hr.
Qed.

(** [handleIncomingUniStream] never touches the local settings, the
    peer-settings latch or the table of bidirectional streams. *)
Theorem uni_handler_leaves_settings_and_streams (sess : session)
  (c : connection) (u : uniStream) :
  same_but_uni c (fst (handleUni sess c u)).
Proof. apply handleUni_table. Qed.

(** The channels of incoming unidirectional streams stay within their
    capacity of 10 under [handleIncomingUniStream]. *)
Theorem uni_channels_stay_bounded (sess : session) (c : connection)
  (u : uniStream) :
  bounded maxBufferedStreams (incomingUniStreams c) →
  bounded maxBufferedStreams (incomingUniStreams (fst (handleUni sess c u))).
Proof.
  intros Hb. destruct (handleUni_table sess c u) as [_ [->|[sid ->]]]; [done|].
  apply bounded_insert; [done|].
  destruct (has_room _) eqn:Hr.
  - apply has_room_spec in Hr. rewrite length_app. simpl. lia.
  - by apply bounded_default.
Qed.

(** [handleIncomingUniStream] closes the connection only for a stream
    tagged below 4, and only with STREAM_CREATION_ERROR (0x103), or, for a
    push stream seen by a client, with ID_ERROR (0x108). *)
Theorem uni_close_codes (sess : session) (c : connection) (u : uniStream)
  (code : N) (why : reason) :
  CloseWithError code why ∈ snd (handleUni sess c u) →
  ∃ t, utype u = inr t ∧ (t < 4)%N
       ∧ (code = 0x103%N
          ∨ (code = 0x108%N ∧ t = StreamTypePush
             ∧ sessPerspective sess = PerspectiveClient)).
Proof.
  rewrite handleUni_events. destruct (utype u) as [e|t]; [list_mem|].
  destruct (t <? 4)%N eqn:Ht; cbn [andb].
  - apply N.ltb_lt in Ht. intros Hin. exists t. split; [done|]. split; [done|].
    revert Hin. destruct (bool_decide _); [list_mem|].
    destruct (t =? StreamTypeControl)%N; [list_mem|].
    destruct (t =? StreamTypePush)%N eqn:Hp.
    + apply N.eqb_eq in Hp.
      destruct (sessPerspective sess); [|list_mem].
      intros Hin. right. revert Hin. list_mem.
    + destruct (_ || _); [list_mem|].
      destruct (t =? StreamTypeWebTransportStream)%N; [|list_mem].
      destruct (negb _); [list_mem|]. destruct (usession u); [list_mem|].
      destruct (negb _); [list_mem|]. destruct (has_room _); list_mem.
  - destruct (t =? StreamTypeControl)%N eqn:H0;
      [apply N.eqb_eq in H0; subst; by vm_compute in Ht|].
    destruct (t =? StreamTypePush)%N eqn:H1;
      [apply N.eqb_eq in H1; subst; by vm_compute in Ht|].
    destruct (_ || _); [list_mem|].
    destruct (t =? StreamTypeWebTransportStream)%N; [|list_mem].
    destruct (negb _); [list_mem|]. destruct (usession u); [list_mem|].
    destruct (negb _); [list_mem|]. destruct (has_room _); list_mem.
Qed.

(** A stream with a tag that is neither one of the four control-like types
    nor WEBTRANSPORT_UNI is reset with STREAM_CREATION_ERROR (0x103); the
    connection stays open and is left as it was. *)
Theorem uni_unknown_type_reset (sess : session) (c : connection)
  (u : uniStream) (t : N) :
  utype u = inr t → (4 ≤ t)%N → t ≠ StreamTypeWebTransportStream →
  handleUni sess c u = (c, [CancelRead (ustr u) 0x103%N]).
Proof.
  intros Hu Ht Hw. unfold handleIncomingUniStream. rewrite Hu. cbv zeta.
  apply N.ltb_ge in Ht. rewrite Ht. cbn [andb].
  apply N.eqb_neq in Hw. rewrite Hw. apply N.ltb_ge in Ht.
  replace (t =? StreamTypeControl)%N with false
    by (symmetry; apply N.eqb_neq; intros ->; by vm_compute in Ht).
  replace (t =? StreamTypePush)%N with false
    by (symmetry; apply N.eqb_neq; intros ->; by vm_compute in Ht).
  replace (t =? StreamTypeQPACKEncoder)%N with false
    by (symmetry; apply N.eqb_neq; intros ->; by vm_compute in Ht).
  replace (t =? StreamTypeQPACKDecoder)%N with false
    by (symmetry; apply N.eqb_neq; intros ->; by vm_compute in Ht).
  done.
Qed.

(** Every push stream closes the connection, and is recorded in its slot
    all the same: a second one, or one sent by a client to a server, with
    STREAM_CREATION_ERROR (0x103); the first one sent by a server to a
    client with ID_ERROR (0x108). *)
Theorem uni_push_stream_closes (sess : session) (c : connection)
  (u : uniStream) :
  utype u = inr StreamTypePush →
  length (peerStreams c) = 4 →
  slot (fst (handleUni sess c u)) StreamTypePush = Some (ustr u)
  ∧ snd (handleUni sess c u) =
    [match slot c StreamTypePush, sessPerspective sess with
     | Some _, _ => CloseWithError 0x103%N (MoreThanOne StreamTypePush)
     | None, PerspectiveServer =>
         CloseWithError 0x103%N (SpuriousFromClient StreamTypePush)
     | None, PerspectiveClient => CloseWithError 0x108%N (Text "MAX_PUSH_ID = 0")
     end].
Proof.
  intros Hu Hlen. split.
  - unfold slot. rewrite ConnFacts.handleUni_peerStreams, Hu. simpl.
    change (N.to_nat StreamTypePush) with 1.
    by rewrite list_lookup_insert_eq by lia.
  - rewrite handleUni_events, Hu. simpl.
    destruct (slot c StreamTypePush) as [s|]; simpl;
      [done | by destruct (sessPerspective sess)].
Qed.

(** A unidirectional stream is reset with GENERAL_PROTOCOL_ERROR (0x101)
    exactly when a varint could not be read from it: its type, or the
    session id of a WebTransport stream that is otherwise acceptable. *)
Theorem uni_general_protocol_error_iff (sess : session) (c : connection)
  (u : uniStream) :
  CancelRead (ustr u) 0x101%N ∈ snd (handleUni sess c u)
  ↔ (∃ e, utype u = inl e)
    ∨ (utype u = inr StreamTypeWebTransportStream
       ∧ WebTransportEnabled (settings c) = true
       ∧ ∃ e, usession u = inl e).
Proof.
  rewrite handleUni_events. split.
  - destruct (utype u) as [e|t]; [eauto|].
    destruct (_ && _); [list_mem|].
    destruct (t =? StreamTypeControl)%N; [list_mem|].
    destruct (t =? StreamTypePush)%N; [destruct (sessPerspective sess); list_mem|].
    destruct (_ || _); [list_mem|].
    destruct (t =? StreamTypeWebTransportStream)%N eqn:Hw; [|list_mem].
    apply N.eqb_eq in Hw as ->.
    destruct (WebTransportEnabled (settings c)) eqn:He; simpl; [|list_mem].
    destruct (usession u) as [e|sid]; [intros _; right; eauto|].
    destruct (negb _); [list_mem|]. destruct (has_room _); list_mem.
  - intros [[e ->]|(-> & -> & e & ->)]; simpl; apply elem_of_cons; by left.
Qed.

(** When the channel of a session already holds 10 streams, a further
    unidirectional stream for that session is reset with
    WEBTRANSPORT_BUFFERED_STREAM_REJECTED (0x3994bd84) and the connection
    is left as it was. *)
Theorem uni_full_channel_rejects (sess : session) (c : connection)
  (u : uniStream) (sid : N) (ch : list Stream) :
  WebTransportEnabled (settings c) = true →
  utype u = inr StreamTypeWebTransportStream →
  usession u = inr sid →
  isClientBidi sid = true →
  incomingUniStreams c !! sid = Some ch →
  length ch = maxBufferedStreams →
  handleUni sess c u = (c, [CancelRead (ustr u) 0x3994bd84%N]).
Proof.
  intros He Ht Hs Hid Hch Hlen. unfold handleIncomingUniStream.
  rewrite Ht, Hs. simpl. rewrite He, Hid. simpl.
  unfold incomingUniStreamsChan. rewrite Hch.
  unfold has_room. by rewrite Hlen.
Qed.

End Uni.

Lemma uni_channels_stay_bounded_witness :
  bounded maxBufferedStreams
    (incomingUniStreams
       (fst (handleIncomingUniStream webTransportSetting
               (mkSession PerspectiveServer false)
               (newConn {[ 0x2b603742%N := 1%N ]})
               (mkUni 6%N (inr StreamTypeWebTransportStream) (inr 4%N))))).
Proof.
  apply (uni_channels_stay_bounded webTransportSetting
           (mkSession PerspectiveServer false)
           (newConn {[ 0x2b603742%N := 1%N ]})
           (mkUni 6%N (inr StreamTypeWebTransportStream) (inr 4%N))).
  intros k ch Hk. simpl in Hk. by rewrite lookup_empty in Hk.
Defined.

Lemma uni_close_codes_witness :
  ∃ t, @inr error N StreamTypePush = inr t ∧ (t < 4)%N
       ∧ (0x108%N = 0x103%N
          ∨ (0x108%N = 0x108%N ∧ t = StreamTypePush
             ∧ PerspectiveClient = PerspectiveClient)).
Proof.
  apply (uni_close_codes webTransportSetting (mkSession PerspectiveClient false)
           (newConn ∅) (mkUni 3%N (inr StreamTypePush) (inl endOfVarint))
           0x108%N (Text "MAX_PUSH_ID = 0")).
  apply list_elem_of_In. vm_compute. by left.
Defined.

Lemma uni_unknown_type_reset_witness :
  handleIncomingUniStream webTransportSetting (mkSession PerspectiveClient false)
    (newConn ∅) (mkUni 3%N (inr 1337%N) (inl endOfVarint))
  = (newConn ∅, [CancelRead 3%N 0x103%N]).
Proof.
  apply (uni_unknown_type_reset webTransportSetting
           (mkSession PerspectiveClient false) (newConn ∅)
           (mkUni 3%N (inr 1337%N) (inl endOfVarint)) 1337%N);
    [reflexivity | by vm_compute | by vm_compute].
Defined.

Lemma uni_push_stream_closes_witness :
  snd (handleIncomingUniStream webTransportSetting
         (mkSession PerspectiveServer false) (newConn ∅)
         (mkUni 3%N (inr StreamTypePush) (inl endOfVarint)))
  = [CloseWithError 0x103%N (SpuriousFromClient StreamTypePush)].
Proof.
  apply (uni_push_stream_closes webTransportSetting
           (mkSession PerspectiveServer false) (newConn ∅)
           (mkUni 3%N (inr StreamTypePush) (inl endOfVarint)));
    reflexivity.
Defined.

Lemma uni_full_channel_rejects_witness :
  let c := set_incomingUniStreams {[ 4%N := [1;2;3;4;5;6;7;8;9;10]%N ]}
             (newConn {[ 0x2b603742%N := 1%N ]}) in
  handleIncomingUniStream webTransportSetting (mkSession PerspectiveServer false)
    c (mkUni 11%N (inr StreamTypeWebTransportStream) (inr 4%N))
  = (c, [CancelRead 11%N 0x3994bd84%N]).
Proof.
  apply (uni_full_channel_rejects webTransportSetting
           (mkSession PerspectiveServer false)
           (set_incomingUniStreams {[ 4%N := [1;2;3;4;5;6;7;8;9;10]%N ]}
              (newConn {[ 0x2b603742%N := 1%N ]}))
           (mkUni 11%N (inr StreamTypeWebTransportStream) (inr 4%N))
           4%N [1;2;3;4;5;6;7;8;9;10]%N);
    reflexivity.
Defined.

End StreamFacts.

(* ===================================================================== *)
(** * Further properties: the demultiplex tables and the latch *)
(* ===================================================================== *)

Module DemuxFacts.
Import Errors Conn Demux.

Lemma select_one {A : Type} (x : A) (pick : nat) : select [x] pick = Some x.
Proof. unfold select. cbn [length]. by rewrite Nat.mod_1_r. Qed.

Lemma select_nil {A : Type} (pick : nat) : select (@nil A) pick = None.
Proof. unfold select. by destruct (pick mod _). Qed.

Lemma select_elem {A : Type} (l : list A) (pick : nat) (x : A) :
  select l pick = Some x → x ∈ l.
Proof. unfold select. apply list_elem_of_lookup_2. Qed.

(** What [acceptStream] returns depends on the channel of the session id
    alone. *)
Lemma acceptStream_result (c : connection) (sid : N) (sessDone : bool)
  (pick : nat) :
  snd (acceptStream c sid sessDone pick) =
  match default [] (incomingStreams c !! sid), sessDone with
  | str :: _, false => Got str
  | str :: _, true => if Nat.even (pick mod 2) then Got str
                      else Stopped contextCanceled
  | [], true => Stopped contextCanceled
  | [], false => Waits
  end.
Proof.
  unfold acceptStream.
  destruct (incomingStreamsChan c sid) as [c1 ch] eqn:Hc.
  apply ConnFacts.incomingStreamsChan_spec in Hc as (-> & _).
  destruct (default [] (incomingStreams c !! sid)) as [|str rest], sessDone;
    [by simpl | by simpl | | by simpl].
  unfold select. cbn [app length].
  pose proof (Nat.mod_upper_bound pick 2 ltac:(lia)) as Hlt.
  destruct (pick mod 2) as [|[|k]]; simpl; [done | done | lia].
Qed.

(** The table after [acceptStream] has taken a stream. *)
Lemma acceptStream_takes (c : connection) (sid : N) (str : Stream)
  (rest : list Stream) :
  default [] (incomingStreams c !! sid) = str :: rest →
  acceptStream c sid false 0
  = (set_incomingStreams (<[sid := rest]> (incomingStreams c)) c, Got str).
Proof.
  intros Hl. unfold acceptStream, incomingStreamsChan.
  destruct (incomingStreams c !! sid) as [ch|] eqn:Hc; simpl in Hl; [|done].
  subst ch. cbn [app]. by rewrite select_one.
Qed.

Lemma acceptMany_drains (l : list Stream) (c : connection) (sid : N) :
  default [] (incomingStreams c !! sid) = l →
  snd (acceptMany c sid (length l)) = map Got l.
Proof.
  revert c. induction l as [|str rest IH]; intros c Hl; [done|].
  cbn [length acceptMany]. rewrite (acceptStream_takes c sid str rest Hl).
  specialize (IH (set_incomingStreams (<[sid := rest]> (incomingStreams c)) c)).
  destruct (acceptMany _ sid (length rest)) as [c2 rs]. simpl in *.
  rewrite IH; [done|]. by rewrite lookup_insert_eq.
Qed.

Section Streams.
Variable WebTransportEnabled : gmap N N → bool.

Local Abbreviation handleBidi := (handleIncomingStream WebTransportEnabled).
Local Abbreviation deliver := (deliverAll WebTransportEnabled).

Lemma deliverAll_channel (strs : list Stream) (c : connection) (sid : N) :
  WebTransportEnabled (settings c) = true →
  length (default [] (incomingStreams c !! sid)) + length strs
    ≤ maxBufferedStreams →
  default [] (incomingStreams (deliver c sid strs) !! sid)
  = default [] (incomingStreams c !! sid) ++ strs.
Proof.
  revert c. induction strs as [|str strs IH]; intros c He Hlen.
  - simpl. by rewrite app_nil_r.
  - cbn [deliverAll].
    pose proof (ConnFacts.handleBidi_webtransport WebTransportEnabled c str sid [] He)
      as [_ H].
    pose proof (StreamFacts.bidi_handler_changes_only_its_table
                  WebTransportEnabled c str
                  [NextFrame FrameTypeWebTransportStream sid]) as [(Hs & _) _].
    cbv zeta in H.
    replace (has_room (default [] (incomingStreams c !! sid))) with true in H.
    2:{ symmetry. apply StreamFacts.has_room_spec. simpl in Hlen. lia. }
    destruct H as [Ht _].
    rewrite IH.
    + rewrite Ht, lookup_insert_eq. simpl. by rewrite <- app_assoc.
    + by rewrite Hs.
    + rewrite Ht, lookup_insert_eq. simpl. rewrite length_app. simpl in *. lia.
Qed.

(** Streams that arrive for one session, as long as its channel has room
    for them, are handed out by [acceptStream] in the order of their
    arrival, after the streams that were waiting already: none is lost,
    repeated or reordered. *)
Theorem streams_accepted_in_arrival_order (c : connection) (sid : N)
  (strs : list Stream) :
  WebTransportEnabled (settings c) = true →
  length (default [] (incomingStreams c !! sid)) + length strs
    ≤ maxBufferedStreams →
  let waiting := default [] (incomingStreams c !! sid) in
  snd (acceptMany (deliver c sid strs) sid (length (waiting ++ strs)))
  = map Got (waiting ++ strs).
Proof.
  intros He Hlen waiting. apply acceptMany_drains.
  by apply deliverAll_channel.
Qed.


End Streams.

(** [acceptStream] and [acceptUniStream] hand out the oldest stream of the
    channel and take it out of the channel; they stop with an error only
    when the context of the session has ended, and wait only when the
    channel is empty and the session lives. *)
Theorem accept_takes_oldest_stream (c : connection) (sid : N)
  (sessDone : bool) (pick : nat) :
  match snd (acceptStream c sid sessDone pick) with
  | Got str =>
      ∃ rest, incomingStreams c !! sid = Some (str :: rest)
              ∧ incomingStreams (fst (acceptStream c sid sessDone pick)) !! sid
                = Some rest
  | Stopped _ => sessDone = true
  | Waits =>
      sessDone = false ∧ default [] (incomingStreams c !! sid) = []
      ∧ incomingStreams (fst (acceptStream c sid sessDone pick)) !! sid = Some []
  end
  ∧ match snd (acceptUniStream c sid sessDone pick) with
    | Got str =>
        ∃ rest, incomingUniStreams c !! sid = Some (str :: rest)
                ∧ incomingUniStreams (fst (acceptUniStream c sid sessDone pick)) !! sid
                  = Some rest
    | Stopped _ => sessDone = true
    | Waits =>
        sessDone = false ∧ default [] (incomingUniStreams c !! sid) = []
        ∧ incomingUniStreams (fst (acceptUniStream c sid sessDone pick)) !! sid
          = Some []
    end.
Proof.
  split.
  - unfold acceptStream, incomingStreamsChan.
    destruct (incomingStreams c !! sid) as [[|str rest]|] eqn:Hc, sessDone;
      cbn [app]; rewrite ?select_one, ?select_nil; simpl;
      rewrite ?Hc, ?lookup_insert_eq; try done; try (by eexists).
    unfold select. cbn [length].
    pose proof (Nat.mod_upper_bound pick 2 ltac:(lia)) as Hlt.
    destruct (pick mod 2) as [|[|k]]; simpl; [|done|lia].
    rewrite lookup_insert_eq. by eexists.
  - unfold acceptUniStream, incomingUniStreamsChan.
    destruct (incomingUniStreams c !! sid) as [[|str rest]|] eqn:Hc, sessDone;
      cbn [app]; rewrite ?select_one, ?select_nil; simpl;
      rewrite ?Hc, ?lookup_insert_eq; try done; try (by eexists).
    unfold select. cbn [length].
    pose proof (Nat.mod_upper_bound pick 2 ltac:(lia)) as Hlt.
    destruct (pick mod 2) as [|[|k]]; simpl; [|done|lia].
    rewrite lookup_insert_eq. by eexists.
Qed.

(** [cleanup] removes the three channels of a session id and leaves the
    channels of every other id and the rest of the connection alone;
    streams still buffered for the session are dropped with their channel,
    so a later [acceptStream] for it waits. *)
Theorem cleanup_removes_the_session (d : demux) (sid : N) (pick : nat) :
  let d' := cleanup d sid in
  incomingStreams (conn d') !! sid = None
  ∧ incomingUniStreams (conn d') !! sid = None
  ∧ incomingDatagrams d' !! sid = None
  ∧ (∀ j, j ≠ sid →
       incomingStreams (conn d') !! j = incomingStreams (conn d) !! j
       ∧ incomingUniStreams (conn d') !! j = incomingUniStreams (conn d) !! j
       ∧ incomingDatagrams d' !! j = incomingDatagrams d !! j)
  ∧ settings (conn d') = settings (conn d)
  ∧ peerStreams (conn d') = peerStreams (conn d)
  ∧ shown (conn d') = shown (conn d)
  ∧ snd (acceptStream (conn d') sid false pick) = Waits
  ∧ snd (acceptUniStream (conn d') sid false pick) = Waits.
Proof.
  cbv zeta. unfold cleanup. simpl.
  rewrite !lookup_delete_eq.
  repeat split; try done.
  - by rewrite lookup_delete_ne.
  - by rewrite lookup_delete_ne.
  - by rewrite lookup_delete_ne.
  - rewrite acceptStream_result. simpl. by rewrite lookup_delete_eq.
  - unfold acceptUniStream, incomingUniStreamsChan. simpl.
    rewrite lookup_delete_eq. cbn [app]. by rewrite select_nil.
Qed.

Section Latch.
Variable DatagramsEnabled : gmap N N → bool.

(** [PeerSettings] does not wait: on a new connection it returns nil and
    no error; once the control-stream reader has read the peer's SETTINGS
    frame it returns the settings of that frame, and the limit on the
    header size is the one those settings carry. *)
Theorem peer_settings_are_what_the_peer_sent (sess : session)
  (local peer : gmap N N) (pick : bool) :
  DatagramsEnabled peer = false ∨ SupportsDatagrams sess = true →
  let c := fst (handleControlStream DatagramsEnabled sess (newConn local)
                  (ControlFrame FrameTypeSettings (inr peer))) in
  PeerSettings (newConn local) false pick = (None, None)
  ∧ PeerSettings c false pick = (Some peer, None)
  ∧ peerMaxHeaderBytes c false pick =
    match peer !! SettingMaxFieldSectionSize with
    | None | Some 0%N => (1 * 1024 * 1024)%N
    | Some max => max
    end.
Proof.
  intros Hok. cbv zeta. unfold handleControlStream. simpl.
  replace (DatagramsEnabled peer && negb (SupportsDatagrams sess)) with false.
  2:{ destruct Hok as [-> | ->]; [done | by rewrite andb_false_r]. }
  simpl. repeat split; try done.
  unfold peerMaxHeaderBytes, PeerSettings, index_ok. simpl.
  by destruct (peer !! SettingMaxFieldSectionSize) as [[|p]|].
Qed.


End Latch.

Lemma streams_accepted_in_arrival_order_witness :
  snd (acceptMany
         (deliverAll webTransportSetting (newConn {[ 0x2b603742%N := 1%N ]})
            4%N [7; 9; 8]%N) 4%N 3)
  = [Got 7%N; Got 9%N; Got 8%N].
Proof.
  apply (streams_accepted_in_arrival_order webTransportSetting
           (newConn {[ 0x2b603742%N := 1%N ]}) 4%N [7; 9; 8]%N).
  - reflexivity.
  - simpl. rewrite lookup_empty. simpl. unfold maxBufferedStreams. lia.
Defined.


Lemma peer_settings_are_what_the_peer_sent_witness :
  PeerSettings
    (fst (handleControlStream datagramSetting (mkSession PerspectiveClient true)
            (newConn ∅) (ControlFrame FrameTypeSettings (inr {[ 6%N := 4096%N ]}))))
    false true
  = (Some {[ 6%N := 4096%N ]}, None).
Proof.
  apply (peer_settings_are_what_the_peer_sent datagramSetting
           (mkSession PerspectiveClient true) ∅ {[ 6%N := 4096%N ]} true).
  by left.
Defined.


End DemuxFacts.

(* ===================================================================== *)
(** * Further properties: datagrams *)
(* ===================================================================== *)

Module VarintFacts.
Import Varint.
Local Open Scope N_scope.

Lemma to_N_byte_of (n : N) : Byte.to_N (byte_of n) = n mod 256.
Proof.
  unfold byte_of. destruct (Byte.of_N (n mod 256)) as [b|] eqn:E; simpl.
  - by apply Byte.to_of_N in E.
  - apply Byte.of_N_None_iff in E.
    pose proof (N.mod_upper_bound n 256 ltac:(done)). lia.
Qed.

Lemma length_be (k : nat) (v : N) : length (be k v) = k.
Proof. induction k as [|k IH]; simpl; [done | by rewrite IH]. Qed.

Lemma be_value_be (k : nat) (v acc : N) :
  be_value acc (be k v) = acc * 256 ^ N.of_nat k + v mod 256 ^ N.of_nat k.
Proof.
  revert acc. induction k as [|k IH]; intros acc.
  - simpl. rewrite N.mod_1_r. lia.
  - cbn [be be_value]. rewrite IH, to_N_byte_of.
    rewrite Nat2N.inj_succ, N.pow_succ_r'.
    rewrite (N.mul_comm 256 (256 ^ N.of_nat k)).
    rewrite (N.Div0.mod_mul_r v (256 ^ N.of_nat k) 256). lia.
Qed.

Lemma Read_be (p : N) (v : N) (rest : list Byte.byte) :
  p < 4 →
  let k := (N.to_nat (2 ^ p) - 1)%nat in
  v < 64 * 256 ^ N.of_nat k →
  Read (be (S k) (v + p * 64 * 256 ^ N.of_nat k) ++ rest) = Some (v, rest).
Proof.
  intros Hp k Hv. cbn [be app Read].
  rewrite to_N_byte_of.
  set (m := 256 ^ N.of_nat k) in *.
  assert (0 < m) as Hm by (pose proof (N.pow_nonzero 256 (N.of_nat k) ltac:(done)); lia).
  replace (v + p * 64 * m) with (v + (p * 64) * m) by lia.
  rewrite N.div_add by lia.
  assert (v / m < 64) as Hhi by (apply N.Div0.div_lt_upper_bound; lia).
  rewrite (N.mod_small (v / m + p * 64)) by lia.
  replace (N.shiftr (v / m + p * 64) 6) with p.
  2:{ rewrite N.shiftr_div_pow2. change (2 ^ 6) with 64.
      rewrite N.div_add by lia. rewrite N.div_small by lia. lia. }
  replace (N.land (v / m + p * 64) 63) with (v / m).
  2:{ change 63 with (N.ones 6). rewrite N.land_ones. change (2 ^ 6) with 64.
      rewrite N.Div0.mod_add. by rewrite N.mod_small. }
  rewrite N.shiftl_1_l. fold k.
  rewrite length_app, length_be.
  replace (k + length rest <? k)%nat with false by (symmetry; apply Nat.ltb_ge; lia).
  rewrite take_app_length', drop_app_length' by (by rewrite length_be).
  rewrite be_value_be. fold m.
  f_equal. f_equal.
  replace (v + p * 64 * m) with (v + (p * 64) * m) by lia.
  rewrite N.Div0.mod_add.
  rewrite (N.div_mod v m) at 3 by lia. lia.
Qed.

Lemma Write_Read (v : N) (rest : list Byte.byte) :
  v < 2 ^ 62 →
  ∃ enc, Write v = Some enc ∧ Len v = Some (length enc)
         ∧ Read (enc ++ rest) = Some (v, rest).
Proof.
  intros Hv. unfold Write, Len.
  destruct (v <? 2 ^ 6) eqn:H6; [|destruct (v <? 2 ^ 14) eqn:H14;
    [|destruct (v <? 2 ^ 30) eqn:H30; [|destruct (v <? 2 ^ 62) eqn:H62]]].
  - apply N.ltb_lt in H6. eexists. split; [done|]. split; [by rewrite length_be|].
    apply (Read_be 0 v rest); [done|]. change (v < 64). exact H6.
  - apply N.ltb_lt in H14. eexists. split; [done|]. split; [by rewrite length_be|].
    apply (Read_be 1 v rest); [done|]. change (v < 2 ^ 14). exact H14.
  - apply N.ltb_lt in H30. eexists. split; [done|]. split; [by rewrite length_be|].
    apply (Read_be 2 v rest); [done|]. change (v < 2 ^ 30). exact H30.
  - apply N.ltb_lt in H62. eexists. split; [done|]. split; [by rewrite length_be|].
    apply (Read_be 3 v rest); [done|]. change (v < 2 ^ 62). exact H62.
  - apply N.ltb_ge in H62. lia.
Qed.

Lemma be_value_bound (bs : list Byte.byte) (acc : N) :
  be_value acc bs < (acc + 1) * 256 ^ N.of_nat (length bs).
Proof.
  revert acc. induction bs as [|b bs IH]; intros acc.
  - simpl. lia.
  - cbn [be_value length]. rewrite Nat2N.inj_succ, N.pow_succ_r'.
    pose proof (IH (acc * 256 + Byte.to_N b)) as H.
    pose proof (Byte.to_N_bounded b) as Hb.
    assert (0 < 256 ^ N.of_nat (length bs)) as Hm
      by (pose proof (N.pow_nonzero 256 (N.of_nat (length bs)) ltac:(done)); lia).
    nia.
Qed.

Lemma Read_bound (bs rest : list Byte.byte) (v : N) :
  Read bs = Some (v, rest) → v < 2 ^ 62.
Proof.
  destruct bs as [|b bs]; [done|]. cbn [Read].
  pose proof (Byte.to_N_bounded b) as Hb.
  set (first := Byte.to_N b) in *.
  assert (N.shiftr first 6 < 4) as Hp.
  { rewrite N.shiftr_div_pow2. change (2 ^ 6) with 64.
    apply N.Div0.div_lt_upper_bound. lia. }
  assert (N.land first 63 < 64) as Hhi.
  { change 63 with (N.ones 6). rewrite N.land_ones. by apply N.mod_upper_bound. }
  set (more := (N.to_nat (N.shiftl 1 (N.shiftr first 6)) - 1)%nat).
  assert (more ≤ 7)%nat as Hmore.
  { subst more. rewrite N.shiftl_1_l.
    assert (2 ^ N.shiftr first 6 ≤ 2 ^ 3) by (apply N.pow_le_mono_r; lia).
    change (2 ^ 3) with 8 in *. lia. }
  clearbody more.
  destruct (length bs <? more)%nat eqn:Hl; [done|]. apply Nat.ltb_ge in Hl.
  intros [= <- _].
  pose proof (be_value_bound (take more bs) (N.land first 63)) as H.
  rewrite length_take in H. rewrite Nat.min_l in H by done.
  assert (256 ^ N.of_nat more ≤ 256 ^ 7) by (apply N.pow_le_mono_r; lia).
  change (2 ^ 62) with (64 * 256 ^ 7).
  nia.
Qed.

Lemma Read_Len (bs rest : list Byte.byte) (v : N) :
  Read bs = Some (v, rest) → ∃ n, Len v = Some n ∧ (1 ≤ n ≤ 8)%nat.
Proof.
  intros H. apply Read_bound in H. unfold Len.
  repeat (case_match; [eexists; split; [done | lia]|]).
  apply N.ltb_ge in H3. lia.
Qed.

End VarintFacts.

Module DatagramFacts.
Import Errors Conn Demux.

Lemma routeDatagram_delivers (d : demux) (bytes rest : list Byte.byte)
  (sid : N) (n : nat) (pick : nat) :
  Varint.Read bytes = Some (sid, rest) →
  Varint.Len sid = Some n →
  isClientBidi sid = true →
  length (default [] (incomingDatagrams d !! sid)) < maxBufferedDatagrams →
  routeDatagram d bytes false pick
  = (mkDemux (conn d) (incomingDatagramsOnce d)
       (<[sid := default [] (incomingDatagrams d !! sid) ++ [drop n bytes]]>
          (incomingDatagrams d)),
     Delivered sid).
Proof.
  intros Hr Hl Hid Hroom. unfold routeDatagram. rewrite Hr, Hl, Hid. simpl.
  unfold incomingDatagramsChan.
  destruct (incomingDatagrams d !! sid) as [ch|] eqn:Hc; simpl in *.
  - apply Nat.ltb_lt in Hroom. rewrite Hroom. cbn [app].
    by rewrite DemuxFacts.select_one.
  - by rewrite insert_insert_eq.
Qed.

(** A datagram written by [writeDatagram] for a client-initiated
    bidirectional session id and routed by the datagram reader at the
    other end is put, without the session id, at the end of the channel of
    that session, and [readDatagram] returns the oldest datagram of that
    channel: the message itself when nothing was waiting. *)
Theorem datagram_round_trip (d : demux) (sid : N) (msg : list Byte.byte)
  (sendErr : option error) (pick pick' : nat) :
  (sid < 2 ^ 62)%N →
  isClientBidi sid = true →
  length (default [] (incomingDatagrams d !! sid)) < maxBufferedDatagrams →
  ∃ bytes,
    writeDatagram sid msg sendErr = Sent bytes sendErr
    ∧ let waiting := default [] (incomingDatagrams d !! sid) in
      let r := routeDatagram d bytes false pick in
      snd r = Delivered sid
      ∧ incomingDatagrams (fst r) !! sid = Some (waiting ++ [msg])
      ∧ snd (readDatagram (fst r) sid None false pick')
        = Got (default msg (head waiting)).
Proof.
  intros Hv Hid Hroom.
  destruct (VarintFacts.Write_Read sid msg Hv) as (enc & Hw & Hl & Hr).
  exists (enc ++ msg). unfold writeDatagram. rewrite Hw. split; [done|].
  cbv zeta. rewrite (routeDatagram_delivers d _ msg sid (length enc) pick Hr Hl Hid Hroom).
  rewrite drop_app_length. simpl. rewrite lookup_insert_eq.
  split; [done|]. split; [done|].
  unfold readDatagram, incomingDatagramsChan. simpl. rewrite lookup_insert_eq.
  destruct (default [] (incomingDatagrams d !! sid)) as [|m0 ms]; cbn [app];
    by rewrite DemuxFacts.select_one.
Qed.

(** The datagram reader drops, without a trace, a datagram whose session
    id cannot be read or is not a client-initiated bidirectional stream
    id; [writeDatagram] itself sends datagrams for such ids. *)
Theorem datagram_dropped (d : demux) (bytes : list Byte.byte)
  (sessDone : bool) (pick : nat) :
  Varint.Read bytes = None
  ∨ (∃ sid rest, Varint.Read bytes = Some (sid, rest) ∧ isClientBidi sid = false) →
  routeDatagram d bytes sessDone pick = (d, Dropped)
  ∧ ∀ sid msg sendErr,
      (sid < 2 ^ 62)%N → isClientBidi sid = false →
      ∃ sent, writeDatagram sid msg sendErr = Sent sent sendErr
              ∧ routeDatagram d sent sessDone pick = (d, Dropped).
Proof.
  intros Hbad. split.
  - unfold routeDatagram. destruct Hbad as [->|(sid & rest & -> & Hid)]; [done|].
    destruct (Varint.Len sid); [by rewrite Hid | done].
  - intros sid msg sendErr Hv Hid.
    destruct (VarintFacts.Write_Read sid msg Hv) as (enc & Hw & Hl & Hr).
    exists (enc ++ msg). unfold writeDatagram, routeDatagram.
    by rewrite Hw, Hr, Hl, Hid.
Qed.

(** The datagram reader never drops a datagram for want of room: when the
    channel of its session is full and the session lives, the reader
    waits at that datagram and routes none of the datagrams that come
    after it, whatever session they are for. *)
Theorem full_datagram_channel_blocks_reader (d : demux)
  (bytes rest : list Byte.byte) (sid : N) (ch : list (list Byte.byte))
  (pick : nat) (later : list arrival) :
  Varint.Read bytes = Some (sid, rest) →
  isClientBidi sid = true →
  incomingDatagrams d !! sid = Some ch →
  length ch = maxBufferedDatagrams →
  handleIncomingDatagrams d (mkArrival (inr bytes) false pick :: later)
  = (d, [SendWaits]).
Proof.
  intros Hr Hid Hch Hlen.
  destruct (VarintFacts.Read_Len _ _ _ Hr) as (n & Hl & _).
  cbn [handleIncomingDatagrams received sessDone Demux.pick].
  unfold routeDatagram. rewrite Hr, Hl, Hid. simpl.
  unfold incomingDatagramsChan. rewrite Hch.
  rewrite Hlen. cbn [Nat.ltb Nat.leb maxBufferedDatagrams app].
  by rewrite DemuxFacts.select_nil.
Qed.

(** The reader cuts the session id off a datagram by the length of its
    shortest encoding. A session id below 64 that the peer wrote on two
    bytes therefore leaves its second byte at the front of the payload
    handed to the session. *)
Theorem long_session_id_stays_in_payload (d : demux) (sid : N)
  (msg : list Byte.byte) (pick : nat) :
  (sid < 64)%N →
  isClientBidi sid = true →
  length (default [] (incomingDatagrams d !! sid)) < maxBufferedDatagrams →
  let bytes := Varint.be 2 (sid + 0x4000) ++ msg in
  Varint.Read bytes = Some (sid, msg)
  ∧ incomingDatagrams (fst (routeDatagram d bytes false pick)) !! sid
    = Some (default [] (incomingDatagrams d !! sid)
            ++ [Varint.byte_of sid :: msg]).
Proof.
  intros Hv Hid Hroom bytes.
  assert (Varint.Read bytes = Some (sid, msg)) as Hr.
  { apply (VarintFacts.Read_be 1 sid msg); [done|].
    change (sid < 2 ^ 14)%N. change (2 ^ 14)%N with 16384%N. lia. }
  split; [done|].
  assert (Varint.Len sid = Some 1) as Hl.
  { unfold Varint.Len. apply N.ltb_lt in Hv. change (2 ^ 6)%N with 64%N.
    by rewrite Hv. }
  rewrite (routeDatagram_delivers d bytes msg sid 1 pick Hr Hl Hid Hroom).
  simpl. rewrite lookup_insert_eq. do 3 f_equal.
  subst bytes. cbn [Varint.be app drop]. f_equal.
  change (256 ^ N.of_nat 0)%N with 1%N. rewrite N.div_1_r.
  unfold Varint.byte_of. do 2 f_equal.
  change 16384%N with (64 * 256)%N. by rewrite N.Div0.mod_add.
Qed.

Lemma datagram_round_trip_witness :
  ∃ bytes,
    writeDatagram 4%N [Byte.x68; Byte.x69] None = Sent bytes None
    ∧ snd (readDatagram
             (fst (routeDatagram (mkDemux (newConn ∅) false ∅) bytes false 0))
             4%N None false 0)
      = Got [Byte.x68; Byte.x69].
Proof.
  destruct (datagram_round_trip (mkDemux (newConn ∅) false ∅) 4%N
              [Byte.x68; Byte.x69] None 0 0)
    as (bytes & Hw & _ & _ & Hr).
  - by vm_compute.
  - reflexivity.
  - simpl. rewrite lookup_empty. simpl. unfold maxBufferedDatagrams. lia.
  - exists bytes. split; [exact Hw | exact Hr].
Defined.

Lemma datagram_dropped_witness :
  routeDatagram (mkDemux (newConn ∅) false ∅) [Byte.x01; Byte.x68] false 0
  = (mkDemux (newConn ∅) false ∅, Dropped).
Proof.
  apply (datagram_dropped (mkDemux (newConn ∅) false ∅)
           [Byte.x01; Byte.x68] false 0).
  right. exists 1%N, [Byte.x68]. split; reflexivity.
Defined.

Lemma full_datagram_channel_blocks_reader_witness :
  let d := mkDemux (newConn ∅) true
             {[ 4%N := replicate 10 [Byte.x68] ]} in
  handleIncomingDatagrams d
    [mkArrival (inr [Byte.x04; Byte.x69]) false 0;
     mkArrival (inr [Byte.x08; Byte.x6a]) false 0]
  = (d, [SendWaits]).
Proof.
  apply (full_datagram_channel_blocks_reader
           (mkDemux (newConn ∅) true {[ 4%N := replicate 10 [Byte.x68] ]})
           [Byte.x04; Byte.x69] [Byte.x69] 4%N (replicate 10 [Byte.x68]) 0
           [mkArrival (inr [Byte.x08; Byte.x6a]) false 0]);
    reflexivity.
Defined.

Lemma long_session_id_stays_in_payload_witness :
  incomingDatagrams
    (fst (routeDatagram (mkDemux (newConn ∅) false ∅)
            ([Byte.x40; Byte.x04] ++ [Byte.x68]) false 0)) !! 4%N
  = Some [[Byte.x04; Byte.x68]].
Proof.
  refine (proj2 (long_session_id_stays_in_payload
                   (mkDemux (newConn ∅) false ∅) 4%N [Byte.x68] 0 _ _ _)).
  - by vm_compute.
  - reflexivity.
  - simpl. rewrite lookup_empty. simpl. unfold maxBufferedDatagrams. lia.
Defined.

End DatagramFacts.

(* ===================================================================== *)
(** * Further properties: the client *)
(* ===================================================================== *)

Module ClientMoreFacts.
Import Errors Client.

(** ** RoundTrip *)

(** A round trip that fails before [doRequest] is called (wrong
    authority, failed handshake, request context ended while waiting for
    the handshake, no stream) returns an error and has done nothing: no
    goroutine is started and nothing is written, reset or closed. *)
Theorem roundtrip_fails_before_any_action (dc : bool) (x : exchange)
  (req : Request) :
  callsDoRequest x req = false →
  snd (RoundTrip dc x req) = []
  ∧ ∃ e, fst (RoundTrip dc x req) = inl e.
Proof.
  unfold callsDoRequest, RoundTrip. intros H.
  destruct (authorityMatches x); simpl in *; [|eauto].
  destruct (handshakeErr x) as [e|]; simpl in *; [eauto|].
  destruct (negb (String.eqb (Method req) MethodGet0RTT) && ctxDoneFirst x);
    simpl in *; [eauto|].
  destruct (openErr x) as [e|]; simpl in *; [eauto | done].
Qed.


(** A request with the method [GET_0RTT] does not wait for the handshake:
    it is handled as a GET request would be for which the request context
    did not end first. *)
Theorem zero_rtt_request_is_get_without_wait (dc : bool) (x : exchange)
  (req : Request) :
  Method req = MethodGet0RTT →
  RoundTrip dc x req
  = RoundTrip dc
      (mkExchange (authorityMatches x) (handshakeErr x) false (openErr x)
                  (writeErr x) (reads x))
      (mkRequest MethodGet (ReqHeader req)).
Proof.
  intros Hm. unfold RoundTrip, sentRequest. rewrite Hm. by simpl.
Qed.

(** ** The response headers *)

Lemma index_Add_keeps h key value k v :
  v ∈ Header.index h k → v ∈ Header.index (Header.Add h key value) k.
Proof.
  unfold Header.Add, Header.index.
  destruct (decide (Textproto.CanonicalMIMEHeaderKey key = k)) as [<-|Hne].
  - rewrite lookup_insert_eq. simpl. intros Hv. apply elem_of_app. by left.
  - by rewrite lookup_insert_ne.
Qed.

Lemma index_Add_new h key value :
  value ∈ Header.index (Header.Add h key value)
                       (Textproto.CanonicalMIMEHeaderKey key).
Proof.
  unfold Header.Add, Header.index. rewrite lookup_insert_eq. simpl.
  apply elem_of_app. right. by apply list_elem_of_singleton.
Qed.

(** One frame: what was in the header stays, and every field that is not
    [:status] is added under its canonical name. *)
Lemma scanHeaders_keeps headers sc0 st0 h sc st h' :
  scanHeaders headers sc0 st0 h = Some (sc, st, h') →
  (∀ k v, v ∈ Header.index h k → v ∈ Header.index h' k)
  ∧ (∀ hf, hf ∈ headers → Name hf ≠ pseudoHeaderStatus →
       Value hf ∈ Header.index h' (Textproto.CanonicalMIMEHeaderKey (Name hf))).
Proof.
  revert sc0 st0 h. induction headers as [|hf rest IH]; intros sc0 st0 h; simpl.
  - intros [= _ _ <-]. split; [done|]. intros hf Hin. by apply elem_of_nil in Hin.
  - destruct (String.eqb_spec (Name hf) pseudoHeaderStatus) as [Hn|Hn].
    + destruct (Strconv.Atoi (Value hf)); [|done].
      intros Hs. apply IH in Hs as [Hk Ha]. split; [done|].
      intros hf' Hin Hne. apply elem_of_cons in Hin as [->|Hin]; [done | by apply Ha].
    + intros Hs. apply IH in Hs as [Hk Ha]. split.
      * intros k v Hv. by apply Hk, index_Add_keeps.
      * intros hf' Hin Hne. apply elem_of_cons in Hin as [->|Hin]; [|by apply Ha].
        apply Hk, index_Add_new.
Qed.

(** The frames with an interim status that the loop has passed. *)
Lemma reaches_keeps reads h reads' h' :
  reaches reads h reads' h' →
  ∃ interims, reads = map inr interims ++ reads'
    ∧ (∀ k v, v ∈ Header.index h k → v ∈ Header.index h' k)
    ∧ (∀ frame hf, frame ∈ interims → hf ∈ frame → Name hf ≠ pseudoHeaderStatus →
         Value hf ∈ Header.index h' (Textproto.CanonicalMIMEHeaderKey (Name hf))).
Proof.
  induction 1 as [reads h|headers rest h sc st h1 reads' h' Hscan Hsc _ IH].
  - exists []. split; [done|]. split; [done|].
    intros frame hf Hin. by apply elem_of_nil in Hin.
  - destruct IH as (interims & -> & Hk & Ha).
    apply scanHeaders_keeps in Hscan as [Hk1 Ha1].
    exists (headers :: interims). split; [done|]. split; [by auto|].
    intros frame hf Hin Hhf Hne. apply elem_of_cons in Hin as [->|Hin].
    + by apply Hk, Ha1.
    + by eapply Ha.
Qed.

(** The header fields of the interim responses are kept: when the loop has
    passed some interim HEADERS frames and meets the frame with the final
    status, every field other than [:status] of every one of these frames
    is in the header of the response returned, under its canonical name,
    unless the response is decompressed on the fly. *)
Theorem interim_headers_reach_the_response (dc : bool) (req : Request)
  (reads rest : list headersRead) (final : list HeaderField)
  (h h' : gmap string (list string)) (sc : Z) (st : string) :
  reaches reads ∅ (inr final :: rest) h →
  scanHeaders final 0 "" h = Some (sc, st, h') →
  (sc < 100 ∨ 200 ≤ sc)%Z →
  ∃ res interims,
    fst (doRequest dc req None reads) = inr res
    ∧ reads = map inr interims ++ inr final :: rest
    ∧ StatusCode res = sc
    ∧ (Uncompressed res = false →
       ∀ frame hf, frame ∈ interims ++ [final] → hf ∈ frame →
         Name hf ≠ pseudoHeaderStatus →
         Value hf ∈ Header.index (Header res)
                                 (Textproto.CanonicalMIMEHeaderKey (Name hf))).
Proof.
  intros Hr Hscan Hsc.
  destruct (reaches_keeps _ _ _ _ Hr) as (interims & Hreads & Hk & Ha).
  pose proof (scanHeaders_keeps _ _ _ _ _ _ _ Hscan) as [Hk1 Ha1].
  unfold doRequest. rewrite (ClientFacts.reaches_readResponse _ _ _ _ Hr).
  cbn [readResponse]. rewrite Hscan.
  replace ((sc <? 100)%Z || (200 <=? sc)%Z) with true.
  2:{ symmetry. apply orb_true_iff.
      destruct Hsc; [left; by apply Z.ltb_lt | right; by apply Z.leb_le]. }
  destruct (_ && _); simpl; eexists; exists interims;
    (split; [done|]); (split; [done|]); (split; [done|]); simpl; [done|].
  intros _ frame hf Hin Hhf Hne.
  apply elem_of_app in Hin as [Hin|Hin].
  - by eapply Hk1, Ha.
  - apply list_elem_of_singleton in Hin as ->. by apply Ha1.
Qed.

(** A HEADERS frame without a [:status] field is not rejected: it ends the
    loop, and the response returned has status code 0 and an empty status
    text; the stream is not reset. *)
Theorem missing_status_gives_status_zero (dc : bool) (x : exchange)
  (req : Request) (headers : list HeaderField) (rest : list headersRead)
  (h : gmap string (list string)) :
  callsDoRequest x req = true →
  writeErr x = None →
  reaches (reads x) ∅ (inr headers :: rest) h →
  (∀ hf, hf ∈ headers → Name hf ≠ pseudoHeaderStatus) →
  ∃ res, RoundTrip dc x req
         = (inr res, [GoCancelObserver;
                      WriteRequest (requestGzip_of dc (sentRequest req))])
         ∧ StatusCode res = 0%Z ∧ Status res = "".
Proof.
  intros Hc Hw Hr Hno.
  assert (∃ h', scanHeaders headers 0 "" h = Some (0%Z, "", h')) as [h' Hscan].
  { clear Hr. revert h. induction headers as [|hf hs IH]; intros h; simpl; [eauto|].
    destruct (String.eqb_spec (Name hf) pseudoHeaderStatus) as [Hn|Hn].
    - exfalso. apply (Hno hf); [apply elem_of_cons; by left | done].
    - apply IH. intros hf' Hin. apply Hno, elem_of_cons. by right. }
  rewrite ClientFacts.RoundTrip_calls by done. cbv zeta.
  unfold doRequest. rewrite Hw, (ClientFacts.reaches_readResponse _ _ _ _ Hr).
  cbn [readResponse]. rewrite Hscan. simpl.
  destruct (_ && _); simpl; eexists; done.
Qed.

(** A response is decompressed on the fly only when the client asked for
    gzip of its own accord: compression is not disabled, the method is not
    HEAD, and the request has neither Accept-Encoding nor Range. Such a
    response has lost its Content-Encoding and Content-Length headers and
    its body is the gzip reader; any other response has the plain body. *)
Theorem decompressed_response_loses_its_headers (dc : bool) (req : Request)
  (werr : option error) (reads : list headersRead) (res : Response)
  (evs : list event) :
  doRequest dc req werr reads = (inr res, evs) →
  if Uncompressed res then
    Header res !! "Content-Encoding" = None
    ∧ Header res !! "Content-Length" = None
    ∧ Body res = GzipReader
    ∧ dc = false
    ∧ Method req ≠ MethodHead
    ∧ Header.Get (ReqHeader req) "Accept-Encoding" = ""
    ∧ Header.Get (ReqHeader req) "Range" = ""
  else Body res = RespBody.
Proof.
  unfold doRequest. destruct werr as [e|]; [done|].
  destruct (readResponse reads ∅) as [[e|[[sc st] h]] evs']; [done|].
  destruct (requestGzip_of dc req) eqn:Hg; simpl.
  - destruct (String.eqb (Header.Get h "Content-Encoding") "gzip");
      intros [= <- <-]; simpl; [|done].
    unfold Header.Del.
    change (Textproto.CanonicalMIMEHeaderKey "Content-Encoding")
      with "Content-Encoding".
    change (Textproto.CanonicalMIMEHeaderKey "Content-Length")
      with "Content-Length".
    rewrite lookup_delete_ne by done. rewrite !lookup_delete_eq.
    unfold requestGzip_of in Hg.
    apply andb_true_iff in Hg as [Hg Hr]. apply andb_true_iff in Hg as [Hg Ha].
    apply andb_true_iff in Hg as [Hd Hm].
    apply negb_true_iff in Hd, Hm. apply String.eqb_neq in Hm.
    apply String.eqb_eq in Ha, Hr. done.
  - intros [= <- <-]. done.
Qed.

Lemma roundtrip_fails_before_any_action_witness :
  snd (RoundTrip false (mkExchange false None false None None []) (mkRequest "GET" ∅))
  = [].
Proof.
  apply (roundtrip_fails_before_any_action false
           (mkExchange false None false None None []) (mkRequest "GET" ∅)).
  reflexivity.
Defined.


Lemma zero_rtt_request_is_get_without_wait_witness :
  RoundTrip false
    (mkExchange true None true None None [inr [mkField ":status" "200"]])
    (mkRequest "GET_0RTT" ∅)
  = RoundTrip false
      (mkExchange true None false None None [inr [mkField ":status" "200"]])
      (mkRequest "GET" ∅).
Proof.
  apply (zero_rtt_request_is_get_without_wait false
           (mkExchange true None true None None [inr [mkField ":status" "200"]])
           (mkRequest "GET_0RTT" ∅)).
  reflexivity.
Defined.

Lemma interim_headers_reach_the_response_witness :
  ∃ res, fst (doRequest true (mkRequest "GET" ∅) None
                [inr [mkField ":status" "103"; mkField "foo" "1"];
                 inr [mkField ":status" "200"; mkField "bar" "1"]]) = inr res
         ∧ StatusCode res = 200%Z.
Proof.
  destruct (interim_headers_reach_the_response true (mkRequest "GET" ∅)
              [inr [mkField ":status" "103"; mkField "foo" "1"];
               inr [mkField ":status" "200"; mkField "bar" "1"]] []
              [mkField ":status" "200"; mkField "bar" "1"]
              {[ "Foo" := ["1"] ]} {[ "Foo" := ["1"]; "Bar" := ["1"] ]}
              200%Z "200 ")
    as (res & interims & Hres & _ & Hsc & _).
  - apply (reaches_interim _ _ _ 103%Z "103 " {[ "Foo" := ["1"] ]});
      [by vm_compute | lia | apply reaches_here].
  - by vm_compute.
  - right. lia.
  - exists res. split; [exact Hres | exact Hsc].
Defined.

Lemma missing_status_gives_status_zero_witness :
  ∃ res, RoundTrip false
           (mkExchange true None false None None [inr [mkField "foo" "1"]])
           (mkRequest "GET" ∅)
         = (inr res, [GoCancelObserver;
                      WriteRequest (requestGzip_of false
                                      (sentRequest (mkRequest "GET" ∅)))])
         ∧ StatusCode res = 0%Z ∧ Status res = "".
Proof.
  apply (missing_status_gives_status_zero false
           (mkExchange true None false None None [inr [mkField "foo" "1"]])
           (mkRequest "GET" ∅) [mkField "foo" "1"] [] ∅).
  - reflexivity.
  - reflexivity.
  - apply reaches_here.
  - intros hf Hin. apply list_elem_of_singleton in Hin as ->. discriminate.
Defined.

Lemma decompressed_response_loses_its_headers_witness :
  ∃ res, fst (doRequest false (mkRequest "GET" ∅) None
                [inr [mkField ":status" "200"; mkField "content-encoding" "gzip";
                      mkField "content-length" "10"]]) = inr res
         ∧ Header res !! "Content-Length" = None.
Proof.
  eexists. split; [reflexivity|].
  pose proof (decompressed_response_loses_its_headers false (mkRequest "GET" ∅) None
                [inr [mkField ":status" "200"; mkField "content-encoding" "gzip";
                      mkField "content-length" "10"]] _ _ eq_refl) as H.
  simpl in H. exact (proj1 (proj2 H)).
Defined.

End ClientMoreFacts.

(* ===================================================================== *)
(** * Further properties: writing the request *)
(* ===================================================================== *)

Module SenderFacts.
Import Errors Client Sender.

(** The send side of the request stream ends in at most one way. It is
    closed exactly when the headers were written, the method is not
    CONNECT, and either there is nothing more to send or body and trailers
    were sent without error; it is reset with REQUEST_CANCELED (0x10c)
    exactly when copying the body or writing the trailers failed. It is
    never both closed and reset, and neither when [writeRequest] returns
    an error. *)
Theorem request_stream_ends_one_way (req : outgoing) (requestGzip : bool)
  (s : sending) :
  let r := sendRequest req requestGzip s in
  let sent := bool_decide (headersErr s = None)
              && bool_decide (writeHeadersErr s = None) in
  let nothingMore := negb (oHasBody req) && Nat.eqb (oTrailers req) 0 in
  let trailersFail := Nat.ltb 0 (oTrailers req)
                      && negb (bool_decide (trailersErr s = None)) in
  let fails := negb (bool_decide (copyErr s = None)) || trailersFail in
  occurrences StreamClose (snd r)
  = (if sent && negb (String.eqb (oMethod req) MethodConnect)
        && (nothingMore || (oHasBody req && negb fails))
     then 1 else 0)
  ∧ occurrences (CancelWrite 0x10c%N) (snd r)
    = (if sent && oHasBody req && fails then 1 else 0)
  ∧ occurrences StreamClose (snd r) + occurrences (CancelWrite 0x10c%N) (snd r) ≤ 1
  ∧ (fst r = None ↔ sent = true).
Proof.
  cbv zeta. unfold sendRequest, writeRequest, sendBody, closing.
  destruct s as [[e1|] [e2|] [e3|] [e4|]], req as [m [] [|n]];
    cbn [headersErr writeHeadersErr copyErr trailersErr oMethod oHasBody oTrailers];
    destruct (String.eqb m MethodConnect);
    vm_compute; repeat split; (lia || done || auto).
Qed.

(** A request with trailers but without a body makes [writeRequest] start
    the sending goroutine, which then calls a method of the nil body: the
    goroutine panics and the stream is neither closed nor reset. *)
Theorem trailers_without_body_panic (req : outgoing) (requestGzip : bool)
  (s : sending) :
  oHasBody req = false → 0 < oTrailers req →
  headersErr s = None → writeHeadersErr s = None →
  sendRequest req requestGzip s
  = (None, [WriteHeaders requestGzip; GoSendBody; NilBody]).
Proof.
  intros Hb Ht Hh Hw. unfold sendRequest, writeRequest, sendBody.
  rewrite Hh, Hw, Hb. destruct (oTrailers req) as [|n]; [lia|]. by simpl.
Qed.

Lemma trailers_without_body_panic_witness :
  sendRequest (mkOutgoing "POST" false 1) true (mkSending None None None None)
  = (None, [WriteHeaders true; GoSendBody; NilBody]).
Proof.
  apply (trailers_without_body_panic (mkOutgoing "POST" false 1) true
           (mkSending None None None None)); [reflexivity | simpl; lia | done | done].
Defined.

End SenderFacts.

(* ===================================================================== *)
(** * Further properties: the names of the error codes *)
(* ===================================================================== *)

Module ErrorStringFacts.
Import Errors ErrorString.

Lemma append_inj_l (p a b : string) : p +:+ a = p +:+ b → a = b.
Proof. induction p as [|c p IH]; simpl; [done | intros [= H]; auto]. Qed.

Lemma String_unnamed (e : errorCode) :
  e ∉ named → String e = "unknown error code: " +:+ HexString.of_N e.
Proof.
  intros Hn. unfold String.
  repeat match goal with
  | |- context [(e =? ?c)%N] =>
      destruct (N.eqb_spec e c) as [->|_];
      [exfalso; apply Hn; apply list_elem_of_In; vm_compute; tauto|]
  end.
  done.
Qed.

Lemma String_named (e : errorCode) :
  e ∈ named → ∃ rest, String e = String.String "H" rest.
Proof.
  intros Hin. apply list_elem_of_In in Hin. unfold named in Hin. simpl in Hin.
  repeat destruct Hin as [<-|Hin]; try done; eexists; by vm_compute.
Qed.

(** [errorCode.String] gives different texts for different codes, whether
    they have a name or are printed in hexadecimal. *)
Theorem error_code_names_distinct (e e' : errorCode) :
  String e = String e' → e = e'.
Proof.
  destruct (decide (e ∈ named)) as [Hin|Hout],
           (decide (e' ∈ named)) as [Hin'|Hout'].
  - apply list_elem_of_In in Hin, Hin'. unfold named in Hin, Hin'.
    simpl in Hin, Hin'.
    repeat destruct Hin as [<-|Hin]; try done;
      repeat destruct Hin' as [<-|Hin']; try done;
      intros H; vm_compute in H; (reflexivity || discriminate).
  - destruct (String_named e Hin) as [rest ->].
    rewrite (String_unnamed e' Hout'). discriminate.
  - destruct (String_named e' Hin') as [rest ->].
    rewrite (String_unnamed e Hout). discriminate.
  - rewrite (String_unnamed e Hout), (String_unnamed e' Hout').
    intros H. apply append_inj_l in H.
    rewrite <- (HexString.to_N_of_N e), <- (HexString.to_N_of_N e').
    by rewrite H.
Qed.

Lemma error_code_names_distinct_witness :
  errorRequestCanceled = 0x10c%N.
Proof.
  apply (error_code_names_distinct errorRequestCanceled 0x10c%N). reflexivity.
Defined.

End ErrorStringFacts.

(* ===================================================================== *)
(** * Further properties: setting up connections and clients *)
(* ===================================================================== *)

Module SetupFacts.
Import Errors Conn.
Import Setup (event, OpenUniStream, WriteStreamType, WriteSettingsFrame,
              GoHandleIncomingUniStreams, connRef, NilInterface, NilPointer,
              ConnAt, Accept, Open).

Section WithSettings.
Variable EnableDatagrams : gmap N N → gmap N N.

(** Of [Accept] and [Open], the one that does not fit the perspective of
    the session fails without touching the session. The other one fails
    exactly when [OpenUniStream] fails, and has then written nothing;
    otherwise it has written the CONTROL stream type, then the SETTINGS
    frame, and then started the acceptor of unidirectional streams. The
    settings are those given or, when none are given, empty settings with
    H3_DATAGRAM enabled if the session supports datagrams; the latch of
    the new connection is pending. *)
Theorem accept_and_open_by_role (s : session) (given : option (gmap N N))
  (openErr : option error) :
  let a := Accept EnableDatagrams s given openErr in
  let o := Open EnableDatagrams s given openErr in
  let '(misfit, fit) :=
    match sessPerspective s with
    | PerspectiveServer => (o, a)
    | PerspectiveClient => (a, o)
    end in
  let advertised :=
    match given with
    | Some m => m
    | None => if SupportsDatagrams s then EnableDatagrams ∅ else ∅
    end in
  snd misfit = []
  ∧ (∃ e, fst misfit = (NilInterface, Some e))
  ∧ match openErr with
    | Some e => fit = ((NilPointer, Some e), [OpenUniStream])
    | None =>
        ∃ c, fit = ((ConnAt c, None),
                    [OpenUniStream; WriteStreamType 0%N;
                     WriteSettingsFrame advertised; GoHandleIncomingUniStreams])
             ∧ settings c = advertised
             ∧ shown c = Pending
             ∧ peerStreams c = [None; None; None; None]
    end.
Proof.
  cbv zeta. unfold Accept, Open, Setup.newConn.
  destruct (sessPerspective s), openErr as [e|]; simpl;
    (split; [done|]); (split; [eauto|]); try done; by eexists.
Qed.

End WithSettings.

End SetupFacts.

Module DialFacts.
Import Errors Conn Dial.

Section WithSettings.
Variable DatagramsEnabled : gmap N N → bool.
Variable WebTransportEnabled : gmap N N → bool.
Variable EnableDatagramsSetting : gmap N N → gmap N N.
Variable VersionTLS : N.
Variable versionToALPN : N → string.

(** [dial] succeeds exactly when the dialer returns a session with the
    client perspective on which [OpenUniStream] succeeds. When it fails
    after the dialer returned a session, that session has been closed with
    INTERNAL_ERROR (0x102); the acceptor of unidirectional streams runs
    only after a successful [dial]. [Close] afterwards closes the session
    with NO_ERROR (0x100) whenever [dial] got as far as [newConn], also
    when [newConn] failed, and does nothing otherwise. *)
Theorem dial_then_close (given : option (gmap N N)) (dialed : error + session)
  (openErr closeErr : option error) :
  let '(c, err, evs) := dial EnableDatagramsSetting given dialed openErr in
  let asClient :=
    match dialed with
    | inr s =>
        match sessPerspective s with
        | PerspectiveClient => true
        | PerspectiveServer => false
        end
    | inl _ => false
    end in
  (err = None ↔ asClient = true ∧ openErr = None)
  ∧ (SessCloseWithError 0x102%N ∈ evs ↔ (∃ s, dialed = inr s) ∧ err ≠ None)
  ∧ (Setup Setup.GoHandleIncomingUniStreams ∈ evs ↔ err = None)
  ∧ Close c closeErr
    = if asClient then (closeErr, [SessCloseWithError 0x100%N]) else (None, []).
Proof.
  unfold dial, Setup.Open, Setup.newConn, Close.
  destruct dialed as [e|s];
    [|destruct (sessPerspective s), openErr as [e|]]; simpl;
    repeat split; try done; eauto;
    try (match goal with
         | H : _ ∈ _ |- _ =>
             apply list_elem_of_In in H; vm_compute in H; intuition discriminate
         end);
    try (intros [? ?]; done);
    try (intros [[? ?] ?]; done);
    try (let Hin := fresh "Hin" in
         intros Hin; apply list_elem_of_In in Hin; vm_compute in Hin;
         intuition discriminate);
    try (intros; apply list_elem_of_In; vm_compute; tauto).
Qed.


End WithSettings.

End DialFacts.

(* ===================================================================== *)
(** * Further properties: request streams *)
(* ===================================================================== *)

Module RequestStreamsFacts.
Import Errors Conn RequestStreams.

Lemma starts_app (a b : list event) : starts (a ++ b) = starts a + starts b.
Proof. unfold starts. by rewrite List.filter_app, length_app. Qed.

Lemma step_once (p : Perspective) (q : requests) (c : call) :
  incomingStreamsOnce (fst (fst (step p q c)))
  = incomingStreamsOnce q || reachesOnce p c
  ∧ starts (snd (fst (step p q c)))
    = if negb (incomingStreamsOnce q) && reachesOnce p c then 1 else 0.
Proof.
  destruct p, c as [[ce|] [] pick|[e|str]], q as [[] err [|fr frs] []];
    unfold step, AcceptRequestStream, OpenRequestStream, once; simpl;
    try done;
    repeat match goal with
    | |- context [Demux.select ?l ?n] =>
        let H := fresh in
        destruct (Demux.select l n) as [[? ?]|] eqn:H; simpl;
        [apply DemuxFacts.select_elem in H;
         repeat (apply elem_of_cons in H as [[= -> ->]|H]; simpl; try done);
         try (by apply elem_of_nil in H)|]
    | |- context [if ?b then _ else _] => destruct b; simpl
    end; try done.
Qed.

Lemma requests_run_cons (p : Perspective) (q : requests) (c : call) (cs : list call) :
  run p q (c :: cs) =
  (fst (run p (fst (fst (step p q c))) cs),
   snd (fst (step p q c)) ++ snd (run p (fst (fst (step p q c))) cs)).
Proof.
  cbn [run]. destruct (step p q c) as [[q1 e1] r]; cbn [fst snd].
  by destruct (run p q1 cs) as [q2 e2].
Qed.

(** However often [AcceptRequestStream] and [OpenRequestStream] are
    called on a connection, the loop that accepts bidirectional streams is
    started at most once: by the first call of the method that fits the
    perspective of the connection and, for [OpenRequestStream], gets a
    stream. A call of the other method, or one that gets no stream, does
    not start it. *)
Theorem accept_loop_started_at_most_once (p : Perspective) (q : requests)
  (cs : list call) :
  starts (snd (run p q cs))
  = if negb (incomingStreamsOnce q) && existsb (reachesOnce p) cs then 1 else 0.
Proof.
  revert q. induction cs as [|c cs IH]; intros q.
  - simpl. by rewrite andb_false_r.
  - rewrite requests_run_cons; cbn [snd existsb]. rewrite starts_app, IH.
    destruct (step_once p q c) as [-> ->].
    destruct (incomingStreamsOnce q), (reachesOnce p c),
      (existsb (reachesOnce p) cs); reflexivity.
Qed.






End RequestStreamsFacts.
